(** * msal-react-obo-aisearch-demo: the token relay, checked against its code

    The development embeds the code of the sample that the specification
    talks about:

    - [Js]: the handful of JavaScript built-ins the single-page application
      relies on ([String.prototype.split], [atob], [decodeURIComponent],
      [JSON.parse], ...), as executable functions over UTF-16 code units;
    - [Home] and [HomeHandlers]: [parseJwt] and the three handlers of
      [pages/Home.jsx];
    - [ApiCall]: [callPythonOboApi] of [utils/ApiCall.js], with the browser
      (MSAL instance, [Headers], [fetch], console) as a recording environment;
    - [AuthConfig]: the user-agent checks of [authConfig.js];
    - [AppPy]: the excerpts of the Flask middle tier quoted in
      [documentation/AUTHFLOW_SUMMARY.md];
    - [Relay]: the parts of the delegated-access relay that exist only in
      the specification.

    Definitions come first, the theorems follow. *)

From stdpp Require Import base option list gmap strings.
From Stdlib Require Import NArith ZArith Lia.

Set Warnings "-register-all".

Local Open Scope N_scope.

(** ** JavaScript values and built-ins *)

Module Js.

(** A JavaScript string is a sequence of UTF-16 code units. *)
Definition jsstring := list N.

(** [u "text"] is the JavaScript string literal ['text'] (ASCII text). *)
Definition u (s : string) : jsstring :=
  map (fun a : Ascii.ascii => N.of_nat (Ascii.nat_of_ascii a)) (String.list_ascii_of_string s).

Inductive ErrorName :=
| Error
| TypeError
| SyntaxError
| URIError
| InvalidCharacterError
| OtherError (name : jsstring).

(** What a [throw] or a rejected promise carries: an object with a
    [message]. *)
Record JsError := mkError { err_name : ErrorName; err_message : jsstring }.

(** The completion of an expression: a value, or an exception. For an
    [async] function, [Return] is fulfilment and [Throw] is rejection. *)
Inductive Completion (A : Type) :=
| Return (a : A)
| Throw (e : JsError).
Arguments Return {A} a.
Arguments Throw {A} e.

Definition bind {A B} (c : Completion A) (k : A -> Completion B) : Completion B :=
  match c with
  | Return a => k a
  | Throw e => Throw e
  end.

#[global] Instance completion_ret : MRet Completion := fun A a => Return a.
#[global] Instance completion_bind : MBind Completion := fun A B k c => bind c k.

(** [try { body } catch (e) { handler(e) }] *)
Definition try_catch {A} (body : Completion A) (handler : JsError -> Completion A) : Completion A :=
  match body with
  | Return a => Return a
  | Throw e => handler e
  end.

(** *** Strings *)

(** [s.split(sep)] for a one-code-unit separator: the pieces between the
    occurrences of [sep]; never empty, [''.split('.')] is [['']]. *)
Fixpoint split_on (sep : N) (s : jsstring) : list jsstring :=
  match s with
  | [] => [[]]
  | c :: rest =>
      if c =? sep then [] :: split_on sep rest
      else match split_on sep rest with
           | [] => [[c]]
           | piece :: pieces => (c :: piece) :: pieces
           end
  end.

(** [s.replace(/c/g, d)] for single code units [c] and [d]. *)
Definition replace_all (c d : N) (s : jsstring) : jsstring :=
  map (fun x => if x =? c then d else x) s.

(** [s.slice(-2)] *)
Definition slice_last2 (s : jsstring) : jsstring := drop (length s - 2)%nat s.

Definition hex_digit (d : N) : N :=
  if d <? 10 then 48 + d else 87 + d.

Fixpoint to_hex_fuel (fuel : nat) (n : N) (acc : jsstring) : jsstring :=
  match fuel with
  | O => acc
  | S fuel' =>
      let acc' := hex_digit (n mod 16) :: acc in
      if n <? 16 then acc' else to_hex_fuel fuel' (n / 16) acc'
  end.

(** [n.toString(16)] for a non-negative integer. *)
Definition toString16 (n : N) : jsstring := to_hex_fuel (S (N.to_nat (N.log2 n))) n [].

Fixpoint prefix_of (p s : jsstring) : bool :=
  match p, s with
  | [], _ => true
  | _ :: _, [] => false
  | a :: p', b :: s' => (a =? b) && prefix_of p' s'
  end.

(** [s.includes(p)] *)
Fixpoint includes (s p : jsstring) : bool :=
  prefix_of p s ||
  match s with
  | [] => false
  | _ :: s' => includes s' p
  end.

Fixpoint dec_fuel (fuel : nat) (n : N) (acc : jsstring) : jsstring :=
  match fuel with
  | O => acc
  | S fuel' =>
      let acc' := (48 + n mod 10) :: acc in
      if n <? 10 then acc' else dec_fuel fuel' (n / 10) acc'
  end.

(** The decimal text of a non-negative integer, as a template literal
    [`${n}`] renders it. *)
Definition toString10 (n : N) : jsstring := dec_fuel (S (N.to_nat (N.log2 n))) n [].

(** The number that a run of decimal digits writes. *)
Definition decimal_value (ds : jsstring) : N :=
  fold_left (fun a d => 10 * a + (d - 48)) ds 0.

(** *** [atob]: forgiving base64 decoding (WHATWG Infra) *)

Definition is_ascii_whitespace (c : N) : bool :=
  (c =? 9) || (c =? 10) || (c =? 12) || (c =? 13) || (c =? 32).

Definition base64_value (c : N) : option N :=
  if (65 <=? c) && (c <=? 90) then Some (c - 65)
  else if (97 <=? c) && (c <=? 122) then Some (c - 71)
  else if (48 <=? c) && (c <=? 57) then Some (c + 4)
  else if c =? 43 then Some 62
  else if c =? 47 then Some 63
  else None.

(** When the length is a multiple of four, one or two trailing [=] are
    removed. *)
Definition strip_padding (s : jsstring) : jsstring :=
  if (length s mod 4 =? 0)%nat then
    match reverse s with
    | a :: b :: r =>
        if a =? 61 then (if b =? 61 then reverse r else reverse (b :: r)) else s
    | _ => s
    end
  else s.

Fixpoint sextets_to_bytes (l : list N) : list N :=
  match l with
  | a :: b :: c :: d :: rest =>
      let n := a * 262144 + b * 4096 + c * 64 + d in
      (n / 65536) :: ((n / 256) mod 256) :: (n mod 256) :: sextets_to_bytes rest
  | [a; b; c] => let n := (a * 4096 + b * 64 + c) / 4 in [n / 256; n mod 256]
  | [a; b] => [(a * 64 + b) / 16]
  | _ => []
  end.

(** The error of [atob]. Its message is never read: the one caller,
    [parseJwt], catches the error and drops it. *)
Definition invalid_character : JsError :=
  mkError InvalidCharacterError (u "The string to be decoded is not correctly encoded.").

(** [atob(data)]: the binary string (one code unit per byte), or an
    [InvalidCharacterError]. *)
Definition atob (data : jsstring) : Completion jsstring :=
  let d := strip_padding (filter (fun c => negb (is_ascii_whitespace c)) data) in
  if (length d mod 4 =? 1)%nat then Throw invalid_character
  else match mapM base64_value d with
       | Some sextets => Return (sextets_to_bytes sextets)
       | None => Throw invalid_character
       end.

(** *** [decodeURIComponent] (ECMAScript Decode, nothing preserved) *)

Definition hex_value (c : N) : option N :=
  if (48 <=? c) && (c <=? 57) then Some (c - 48)
  else if (97 <=? c) && (c <=? 102) then Some (c - 87)
  else if (65 <=? c) && (c <=? 70) then Some (c - 55)
  else None.

Definition parse_hex_octet (h1 h2 : N) : option N :=
  v1 ← hex_value h1; v2 ← hex_value h2; Some (16 * v1 + v2).

(** The number of leading one bits of an octet (5 stands for five or
    more). *)
Definition leading_ones (b : N) : nat :=
  if b <? 128 then 0 else if b <? 192 then 1 else if b <? 224 then 2
  else if b <? 240 then 3 else if b <? 248 then 4 else 5.

(** The [n] escapes [%XX] that must follow the first octet of a
    multi-octet sequence. *)
Fixpoint read_continuations (n : nat) (s : jsstring) : option (list N * jsstring) :=
  match n with
  | O => Some ([], s)
  | S n' =>
      match s with
      | p :: h1 :: h2 :: rest =>
          if p =? 37 then
            b ← parse_hex_octet h1 h2;
            '(bs, rest') ← read_continuations n' rest;
            Some (b :: bs, rest')
          else None
      | _ => None
      end
  end.

(** The code point that the octets [b0 :: conts] encode in well-formed
    UTF-8: continuation octets are [10xxxxxx], the encoding is the
    shortest one, and the result is a Unicode scalar value. *)
Definition utf8_code_point (b0 : N) (conts : list N) : option N :=
  if forallb (fun b => (128 <=? b) && (b <? 192)) conts then
    let lead := match length conts with
                | 1%nat => b0 - 192
                | 2%nat => b0 - 224
                | _ => b0 - 240
                end in
    let least := match length conts with
                 | 1%nat => 128
                 | 2%nat => 2048
                 | _ => 65536
                 end in
    let v := fold_left (fun acc b => acc * 64 + (b - 128)) conts lead in
    if (least <=? v) && (v <=? 1114111) && negb ((55296 <=? v) && (v <=? 57343))
    then Some v else None
  else None.

Definition utf16_encode (cp : N) : jsstring :=
  if cp <? 65536 then [cp]
  else [55296 + (cp - 65536) / 1024; 56320 + (cp - 65536) mod 1024].

Fixpoint decode_fuel (fuel : nat) (s : jsstring) : option jsstring :=
  match s with
  | [] => Some []
  | c :: rest =>
      match fuel with
      | O => None
      | S fuel' =>
          if c =? 37 then
            match rest with
            | h1 :: h2 :: rest2 =>
                b ← parse_hex_octet h1 h2;
                match leading_ones b with
                | 0%nat => r ← decode_fuel fuel' rest2; Some (b :: r)
                | 2%nat | 3%nat | 4%nat =>
                    '(conts, rest3) ← read_continuations (leading_ones b - 1) rest2;
                    cp ← utf8_code_point b conts;
                    r ← decode_fuel fuel' rest3;
                    Some (utf16_encode cp ++ r)
                | _ => None
                end
            | _ => None
            end
          else r ← decode_fuel fuel' rest; Some (c :: r)
      end
  end.

(** The error of [decodeURIComponent]; its message is never read
    either. *)
Definition uri_malformed : JsError := mkError URIError (u "URI malformed").

Definition decodeURIComponent (s : jsstring) : Completion jsstring :=
  match decode_fuel (length s) s with
  | Some r => Return r
  | None => Throw uri_malformed
  end.

(** *** [JSON.parse] *)

(** The values [JSON.parse] produces. A number keeps the text of its
    literal (JavaScript reads it as a double); an object keeps its members
    in source order, a later member of the same name shadowing an earlier
    one on lookup. *)
Inductive JSValue :=
| JNull
| JBool (b : bool)
| JNumber (literal : jsstring)
| JString (s : jsstring)
| JArray (items : list JSValue)
| JObject (members : list (jsstring * JSValue)).

Definition is_json_ws (c : N) : bool :=
  (c =? 9) || (c =? 10) || (c =? 13) || (c =? 32).

Fixpoint skip_ws (s : jsstring) : jsstring :=
  match s with
  | c :: r => if is_json_ws c then skip_ws r else s
  | [] => []
  end.

Definition simple_escape (e : N) : option N :=
  if e =? 34 then Some 34 else if e =? 92 then Some 92 else if e =? 47 then Some 47
  else if e =? 98 then Some 8 else if e =? 102 then Some 12 else if e =? 110 then Some 10
  else if e =? 114 then Some 13 else if e =? 116 then Some 9 else None.

Definition hex4 (h1 h2 h3 h4 : N) : option N :=
  a ← hex_value h1; b ← hex_value h2; c ← hex_value h3; d ← hex_value h4;
  Some (4096 * a + 256 * b + 16 * c + d).

(** The characters of a string literal after its opening quote, up to
    the closing one. *)
Fixpoint parse_string_body (s acc : jsstring) : option (jsstring * jsstring) :=
  match s with
  | [] => None
  | c :: r =>
      if c =? 34 then Some (reverse acc, r)
      else if c =? 92 then
        match r with
        | e :: r' =>
            if e =? 117 then
              match r' with
              | h1 :: h2 :: h3 :: h4 :: r'' =>
                  match hex4 h1 h2 h3 h4 with
                  | Some v => parse_string_body r'' (v :: acc)
                  | None => None
                  end
              | _ => None
              end
            else match simple_escape e with
                 | Some x => parse_string_body r' (x :: acc)
                 | None => None
                 end
        | [] => None
        end
      else if c <? 32 then None
      else parse_string_body r (c :: acc)
  end.

Definition is_digit (c : N) : bool := (48 <=? c) && (c <=? 57).

Fixpoint take_digits (s : jsstring) : jsstring * jsstring :=
  match s with
  | c :: r => if is_digit c then let '(d, r') := take_digits r in (c :: d, r') else ([], s)
  | [] => ([], [])
  end.

(** A JSON number literal: an optional minus sign, an integer part
    without a superfluous leading zero, an optional fraction and an optional
    exponent. *)
Definition parse_number (s : jsstring) : option (jsstring * jsstring) :=
  let '(sign, s1) := match s with
                     | c :: r => if c =? 45 then ([c], r) else ([], s)
                     | [] => ([], s)
                     end in
  let '(int, s2) := take_digits s1 in
  match int with
  | [] => None
  | d :: ds =>
      if (d =? 48) && negb (length ds =? 0)%nat then None
      else
        let frac := match s2 with
                    | c :: r =>
                        if c =? 46 then
                          let '(f, r') := take_digits r in
                          match f with [] => None | _ => Some (c :: f, r') end
                        else Some ([], s2)
                    | [] => Some ([], s2)
                    end in
        '(fr, s3) ← frac;
        let expo := match s3 with
                    | c :: r =>
                        if (c =? 101) || (c =? 69) then
                          let '(sg, r1) := match r with
                                           | x :: r0 => if (x =? 43) || (x =? 45) then ([x], r0) else ([], r)
                                           | [] => ([], r)
                                           end in
                          let '(e, r') := take_digits r1 in
                          match e with [] => None | _ => Some (c :: sg ++ e, r') end
                        else Some ([], s3)
                    | [] => Some ([], s3)
                    end in
        '(ex, s4) ← expo;
        Some (sign ++ int ++ fr ++ ex, s4)
  end.

Fixpoint parse_value (fuel : nat) (s : jsstring) : option (JSValue * jsstring) :=
  match fuel with
  | O => None
  | S fuel' =>
      match skip_ws s with
      | [] => None
      | c :: r =>
          if c =? 123 then
            match skip_ws r with
            | c2 :: r2 => if c2 =? 125 then Some (JObject [], r2) else parse_members fuel' r []
            | [] => None
            end
          else if c =? 91 then
            match skip_ws r with
            | c2 :: r2 => if c2 =? 93 then Some (JArray [], r2) else parse_elements fuel' r []
            | [] => None
            end
          else if c =? 34 then
            '(str, r') ← parse_string_body r []; Some (JString str, r')
          else if prefix_of (u "null") (c :: r) then Some (JNull, drop 4 (c :: r))
          else if prefix_of (u "true") (c :: r) then Some (JBool true, drop 4 (c :: r))
          else if prefix_of (u "false") (c :: r) then Some (JBool false, drop 5 (c :: r))
          else '(lit, r') ← parse_number (c :: r); Some (JNumber lit, r')
      end
  end
with parse_members (fuel : nat) (s : jsstring) (acc : list (jsstring * JSValue))
  : option (JSValue * jsstring) :=
  match fuel with
  | O => None
  | S fuel' =>
      match skip_ws s with
      | q :: r =>
          if q =? 34 then
            '(key, r1) ← parse_string_body r [];
            match skip_ws r1 with
            | colon :: r2 =>
                if colon =? 58 then
                  '(v, r3) ← parse_value fuel' r2;
                  match skip_ws r3 with
                  | d :: r4 =>
                      if d =? 44 then parse_members fuel' r4 (acc ++ [(key, v)])
                      else if d =? 125 then Some (JObject (acc ++ [(key, v)]), r4)
                      else None
                  | [] => None
                  end
                else None
            | [] => None
            end
          else None
      | [] => None
      end
  end
with parse_elements (fuel : nat) (s : jsstring) (acc : list JSValue)
  : option (JSValue * jsstring) :=
  match fuel with
  | O => None
  | S fuel' =>
      '(v, r1) ← parse_value fuel' s;
      match skip_ws r1 with
      | d :: r2 =>
          if d =? 44 then parse_elements fuel' r2 (acc ++ [v])
          else if d =? 93 then Some (JArray (acc ++ [v]), r2)
          else None
      | [] => None
      end
  end.

(** *** What the engine raises

    An error that the engine or the browser raises on its own account
    carries a message of its own choosing: the text differs from one engine
    to the next, and it may quote what was offending. Where the code can
    come to read such a message, the message is left to the engine. *)
Inductive Fault :=
| NotJSON (text : jsstring)
| InvalidHeaderValue (value : jsstring)
| PropertyOfNull (property : jsstring).

(** An engine, as far as the code can tell one from another: the message
    it gives to each fault. *)
Definition Engine := Fault -> jsstring.

(** An engine for the runs below, with one fixed message per kind of
    fault. *)
Definition terse_engine : Engine :=
  fun fault =>
    match fault with
    | NotJSON _ => u "Unexpected end of JSON input"
    | InvalidHeaderValue _ => u "Invalid header value"
    | PropertyOfNull property =>
        u "Cannot read properties of null (reading '" ++ property ++ u "')"
    end.

(** The [SyntaxError] of [JSON.parse] on [text]. *)
Definition json_syntax_error (engine : Engine) (text : jsstring) : JsError :=
  mkError SyntaxError (engine (NotJSON text)).

(** [JSON.parse(text)] *)
Definition JSON_parse (engine : Engine) (text : jsstring) : Completion JSValue :=
  match parse_value (S (length text)) text with
  | Some (v, rest) =>
      match skip_ws rest with
      | [] => Return v
      | _ :: _ => Throw (json_syntax_error engine text)
      end
  | None => Throw (json_syntax_error engine text)
  end.

(** [o[key]] on a parsed object: the last member of that name. *)
Definition get_member (key : jsstring) (v : JSValue) : option JSValue :=
  match v with
  | JObject members =>
      snd <$> head (filter (fun kv => bool_decide (fst kv = key)) (reverse members))
  | _ => None
  end.

(** The integer a number literal denotes when it is a plain run of digits
    with an optional sign. *)
Definition integer_value (v : JSValue) : option Z :=
  match v with
  | JNumber lit =>
      let '(neg, ds) := match lit with
                        | c :: r => if c =? 45 then (true, r) else (false, lit)
                        | [] => (false, lit)
                        end in
      if forallb is_digit ds && negb (length ds =? 0)%nat then
        let n := fold_left (fun acc d => acc * 10 + (d - 48)) ds 0 in
        Some (if neg then (- Z.of_N n)%Z else Z.of_N n)
      else None
  | _ => None
  end.

End Js.

(** ** The single-page application *)

(** [src/config.js] and [src/authConfig.js] *)
Module Config.
Import Js.

Definition PYTHON_API_CONFIG_baseUrl : jsstring := u "http://localhost:5000".
Definition PYTHON_API_CONFIG_scope : jsstring := u "api://<YOUR_API_CLIENT_ID>/access_as_user".

(** [API_ENDPOINTS.hello] *)
Definition API_ENDPOINTS_hello : jsstring := PYTHON_API_CONFIG_baseUrl ++ u "/api/hello".

(** [apiRequest.scopes] *)
Definition apiRequest_scopes : list jsstring := [PYTHON_API_CONFIG_scope].

(** [pythonApiConfig.endpoint] *)
Definition pythonApiConfig_endpoint : jsstring := API_ENDPOINTS_hello.

End Config.

(** The browser as the code sees it: the MSAL instance, [fetch], and a
    log of every call the code makes to them. *)
Module Browser.
Import Js.

Record Account := mkAccount { homeAccountId : jsstring }.

(** A [Response]: [ok] is derived from the status, [json()] parses the
    body in the engine the page runs in. *)
Record Response := mkResponse {
  status : N;
  statusText : jsstring;
  body : jsstring
}.

Definition ok (r : Response) : bool := (200 <=? status r) && (status r <=? 299).

Definition json (engine : Engine) (r : Response) : Completion JSValue :=
  JSON_parse engine (body r).

Record RequestInit := mkRequestInit {
  method : jsstring;
  headers : list (jsstring * jsstring);
  payload : option jsstring
}.

(** HTTP whitespace: tab, line feed, carriage return and space. *)
Definition is_http_whitespace (c : N) : bool :=
  (c =? 9) || (c =? 10) || (c =? 13) || (c =? 32).

Fixpoint strip_leading (s : jsstring) : jsstring :=
  match s with
  | c :: rest => if is_http_whitespace c then strip_leading rest else s
  | [] => []
  end.

(** The value a [Headers] object keeps: the one given, without leading
    and trailing HTTP whitespace (Fetch, "normalize" a header value). *)
Definition normalize_header_value (value : jsstring) : jsstring :=
  reverse (strip_leading (reverse (strip_leading value))).

(** Whether [Headers] takes [value]: every code unit is a byte (the
    argument is a ByteString), and the normalized value holds no NUL, line
    feed or carriage return. *)
Definition header_value_accepted (value : jsstring) : bool :=
  forallb (fun c => c <=? 255) value &&
  forallb (fun c => negb ((c =? 0) || (c =? 10) || (c =? 13))) (normalize_header_value value).

(** [headers.append(name, value)] for a valid name: the entries of the
    object after the call, or the [TypeError] the call throws. *)
Definition Headers_append (engine : Engine) (headers : list (jsstring * jsstring))
  (name value : jsstring) : Completion (list (jsstring * jsstring)) :=
  if header_value_accepted value
  then Return (headers ++ [(name, normalize_header_value value)])
  else Throw (mkError TypeError (engine (InvalidHeaderValue value))).

(** What the outside answers. Each operation is scripted by its
    arguments, as a test double is; [engine] is the engine the page runs
    in. *)
Record World := mkWorld {
  getActiveAccount : option Account;
  acquireTokenSilent : list jsstring -> Account -> Completion jsstring;
  fetch : jsstring -> RequestInit -> Completion Response;
  engine : Engine
}.

Inductive Event :=
| MsalGetActiveAccount
| MsalAcquireTokenSilent (scopes : list jsstring) (account : Account)
| HeadersAppend (name value : jsstring)
| Fetch (url : jsstring) (init : RequestInit)
| ConsoleLog (text : jsstring)
| ConsoleError (text : jsstring) (e : JsError).

(** A computation that logs its calls and completes or throws. *)
Definition Run (A : Type) : Type := list Event * Completion A.

Definition run_ret {A} (a : A) : Run A := ([], Return a).

Definition run_bind {A B} (m : Run A) (k : A -> Run B) : Run B :=
  match m with
  | (t1, Return a) => let '(t2, c) := k a in (t1 ++ t2, c)
  | (t1, Throw e) => (t1, Throw e)
  end.

#[global] Instance run_mret : MRet Run := fun A a => run_ret a.
#[global] Instance run_mbind : MBind Run := fun A B k m => run_bind m k.

Definition emit (e : Event) : Run unit := ([e], Return tt).

Definition throw {A} (e : JsError) : Run A := ([], Throw e).

Definition lift {A} (c : Completion A) : Run A := ([], c).

(** [try { body } catch (error) { handler(error) }], and
    [promise.catch(handler)] *)
Definition run_catch {A} (body : Run A) (handler : JsError -> Run A) : Run A :=
  match body with
  | (t1, Return a) => (t1, Return a)
  | (t1, Throw e) => let '(t2, c) := handler e in (t1 ++ t2, c)
  end.

Definition is_msal (e : Event) : bool :=
  match e with
  | MsalGetActiveAccount | MsalAcquireTokenSilent _ _ => true
  | _ => false
  end.

Definition is_acquire (e : Event) : bool :=
  match e with
  | MsalAcquireTokenSilent _ _ => true
  | _ => false
  end.

Definition is_fetch (e : Event) : bool :=
  match e with
  | Fetch _ _ => true
  | _ => false
  end.

End Browser.

(** [src/utils/ApiCall.js] *)
Module ApiCall.
Import Js Config Browser.

Definition no_active_account : JsError :=
  mkError Error
    (u "No active account! Verify a user has been signed in and setActiveAccount has been called.").

(** [`HTTP ${response.status}: ${response.statusText}`] *)
Definition http_error_message (response : Response) : jsstring :=
  u "HTTP " ++ toString10 (status response) ++ u ": " ++ statusText response.

(** [!accessToken] for an argument that is [undefined] or a string. *)
Definition falsy (accessToken : option jsstring) : bool :=
  match accessToken with
  | None => true
  | Some [] => true
  | Some (_ :: _) => false
  end.

(** The body of [if (!accessToken) { ... }]. *)
Definition acquire (w : World) : Run jsstring :=
  emit MsalGetActiveAccount;;
  match getActiveAccount w with
  | None => throw no_active_account
  | Some account =>
      emit (MsalAcquireTokenSilent apiRequest_scopes account);;
      accessToken ← lift (acquireTokenSilent w apiRequest_scopes account);
      emit (ConsoleLog (u "Access token acquired for Python API"));;
      mret accessToken
  end.

(** [`Bearer ${accessToken}`] *)
Definition bearer (accessToken : jsstring) : jsstring := u "Bearer " ++ accessToken.

(** [{ method: "GET", headers: headers }] *)
Definition options (headers : list (jsstring * jsstring)) : RequestInit :=
  mkRequestInit (u "GET") headers None.

(** Lines 29-51: the request, once [accessToken] holds a token. The call
    of [headers.append] stands outside the promise chain: when it throws,
    the function rejects before anything is logged or sent. *)
Definition call_with_token (w : World) (accessToken : jsstring) : Run JSValue :=
  emit (HeadersAppend (u "Authorization") (bearer accessToken));;
  headers ← lift (Headers_append (engine w) [] (u "Authorization") (bearer accessToken));
  emit (ConsoleLog (u "Calling Python OBO API at: " ++ pythonApiConfig_endpoint));;
  run_catch
    (emit (Fetch pythonApiConfig_endpoint (options headers));;
     response ← lift (fetch w pythonApiConfig_endpoint (options headers));
     if negb (ok response) then throw (mkError Error (http_error_message response))
     else lift (json (engine w) response))
    (fun error =>
       emit (ConsoleError (u "Error calling Python OBO API:") error);;
       throw error).

(** Lines 13-27: the token the request will carry. *)
Definition token_step (w : World) (accessToken : option jsstring) : Run jsstring :=
  if falsy accessToken then acquire w else mret (default [] accessToken).

Definition callPythonOboApi (w : World) (accessToken : option jsstring) : Run JSValue :=
  accessToken ← token_step w accessToken;
  call_with_token w accessToken.

End ApiCall.

(** [src/pages/Home.jsx] *)
Module Home.
Import Js Config Browser ApiCall.

(** The error of [undefined.replace(...)], for a token without a dot;
    the [catch] of [parseJwt] drops it unread. *)
Definition undefined_replace : JsError :=
  mkError TypeError (u "Cannot read properties of undefined (reading 'replace')").

(** ['%' + ('00' + c.charCodeAt(0).toString(16)).slice(-2)] *)
Definition percent_escape (c : N) : jsstring :=
  u "%" ++ slice_last2 (u "00" ++ toString16 c).

(** The body of the [try] block of [parseJwt]. *)
Definition parseJwt_try (engine : Engine) (token : jsstring) : Completion JSValue :=
  let base64Url := split_on 46 token !! 1%nat in
  base64 ← match base64Url with
            | Some segment => Return (replace_all 95 47 (replace_all 45 43 segment))
            | None => Throw undefined_replace
            end;
  binary ← atob base64;
  jsonPayload ← decodeURIComponent (concat (map percent_escape binary));
  JSON_parse engine jsonPayload.

Definition parseJwt (engine : Engine) (token : jsstring) : Completion JSValue :=
  try_catch (parseJwt_try engine token) (fun e => Return JNull).

(** The [useState] cells of the component. *)
Record State := mkState {
  accessTokenClaims : option JSValue;
  loading : bool;
  oboLoading : bool;
  oboResponse : option JSValue;
  oboError : option jsstring;
  searchQuery : jsstring;
  searchResults : option JSValue;
  searchError : option jsstring;
  searchLoading : bool;
  searchTokenClaims : option JSValue
}.

(** What a cell holds once its setter has been given [v]: [null] is the
    empty cell. *)
Definition cell_of (v : JSValue) : option JSValue :=
  match v with
  | JNull => None
  | _ => Some v
  end.

Definition set_obo (loading' : bool) (response : option JSValue) (error : option jsstring)
  (st : State) : State :=
  mkState (accessTokenClaims st) (loading st) loading' response error
    (searchQuery st) (searchResults st) (searchError st) (searchLoading st)
    (searchTokenClaims st).

Definition consent_guidance : jsstring :=
  u "Consent required: Please grant admin consent in Azure Portal for the Python API permission, or log out and log back in to consent.".

(** [error.message && error.message.includes('AADSTS65001')] *)
Definition is_consent_error (error : JsError) : bool :=
  match err_message error with
  | [] => false
  | _ :: _ => includes (err_message error) (u "AADSTS65001")
  end.

(** [handleCallOboApi]: the log of calls and the state once the handler
    has run to its end. *)
Definition handleCallOboApi (w : World) (st : State) : list Event * State :=
  let st := set_obo true None None st in
  match callPythonOboApi w None with
  | (t, Return response) =>
      (t ++ [ConsoleLog (u "OBO API Response:")], set_obo false (cell_of response) None st)
  | (t, Throw error) =>
      (t ++ [ConsoleError (u "OBO API Error:") error],
       set_obo false None
         (Some (if is_consent_error error then consent_guidance else err_message error)) st)
  end.

End Home.

(** ** The middle tier

    [app.py] is known through the excerpts quoted in
    [documentation/AUTHFLOW_SUMMARY.md], section 3. The library calls
    ([jwt.decode], MSAL's [acquire_token_on_behalf_of], [requests.get]) are
    parameters; every call to MSAL or to a downstream resource is logged. *)
Module AppPy.
Import Js.

(** A Python [str], as its code points. [u] writes a literal. *)
Definition str := list N.

Inductive Exception :=
| IndexError
| InvalidTokenError (reason : str)
| RequestException (reason : str).

(** The dict MSAL returns: ["access_token" in result] is
    [is_Some (access_token result)]. *)
Record TokenResult := mkTokenResult {
  access_token : option str;
  error : option str;
  error_description : option str
}.

Record HttpResponse := mkHttpResponse { status_code : N; text : str }.

Inductive Call :=
| OnBehalfOf (user_assertion : option str) (scopes : list str)
| Get (url : str) (headers : list (str * str)).

(** A handler body: the calls made so far, and a value or a raised
    exception. *)
Definition Py (A : Type) : Type := list Call * (Exception + A).

Definition py_bind {A B} (m : Py A) (k : A -> Py B) : Py B :=
  match m with
  | (t1, inr a) => let '(t2, r) := k a in (t1 ++ t2, r)
  | (t1, inl e) => (t1, inl e)
  end.

#[global] Instance py_mret : MRet Py := fun A a => ([], inr a).
#[global] Instance py_mbind : MBind Py := fun A B k m => py_bind m k.

Definition pure_step {A} (r : Exception + A) : Py A := ([], r).

Definition is_exchange (c : Call) : bool :=
  match c with
  | OnBehalfOf _ _ => true
  | Get _ _ => false
  end.

(** [if x] for an optional string: [None] and [''] are false. *)
Definition truthy (x : option str) : bool :=
  match x with
  | Some (_ :: _) => true
  | _ => false
  end.

Definition graph_scopes : list str := [u "https://graph.microsoft.com/.default"].
Definition search_scopes : list str := [u "https://search.azure.com/.default"].
Definition graph_me : str := u "https://graph.microsoft.com/v1.0/me".
Definition graph_memberOf : str := u "https://graph.microsoft.com/v1.0/me/memberOf".

(** [auth_header.split(' ')[1] if auth_header else None] *)
Definition bearer_token (auth_header : option str) : Exception + option str :=
  if truthy auth_header then
    match split_on 32 (default [] auth_header) !! 1%nat with
    | Some token => inr (Some token)
    | None => inl IndexError
    end
  else inr None.

(** The process-wide search settings that [app.py] reads. *)
Record SearchConfig := mkSearchConfig {
  SEARCH_AUTH_MODE : str;
  SEARCH_API_KEY : option str;
  SEARCH_ENDPOINT : str;
  SEARCH_INDEX : str
}.

(** [os.environ.get(key, default)] *)
Definition environ_get (environ : gmap str str) (key fallback : str) : str :=
  default fallback (environ !! key).

(** [SEARCH_CONFIG] of [config.py], as the configuration guide quotes it:
    the key and the mode come from the environment, with the defaults
    ["YOUR_API_KEY"] and ["OBO"]. *)
Definition SEARCH_CONFIG (environ : gmap str str) (endpoint index : str) : SearchConfig :=
  mkSearchConfig
    (environ_get environ (u "SEARCH_AUTH_MODE") (u "OBO"))
    (Some (environ_get environ (u "SEARCH_API_KEY") (u "YOUR_API_KEY")))
    endpoint index.

Section Handlers.

(** What [jwt.decode] returns: the payload of the token. *)
Context {Payload : Type}.
Variable jwt_decode : option str -> Exception + Payload.
Variable acquire_token_on_behalf_of : option str -> list str -> TokenResult.
Variable requests_get : str -> list (str * str) -> Exception + HttpResponse.

(** The names the quoted lines of [hello] bind. *)
Record HelloLocals := mkHelloLocals {
  token_decoded : Payload;
  result : TokenResult;
  graph_response : option HttpResponse;
  groups_response : option HttpResponse
}.

Definition call_get (url : str) (headers : list (str * str)) : Py HttpResponse :=
  ([Get url headers], requests_get url headers).

(** [hello], lines 80-98 (token validation) followed by lines 109-127
    (exchange and Graph calls). *)
Definition hello (auth_header : option str) : Py HelloLocals :=
  token ← pure_step (bearer_token auth_header);
  token_decoded ← pure_step (jwt_decode token);
  result ← (([OnBehalfOf token graph_scopes],
              inr (acquire_token_on_behalf_of token graph_scopes)) : Py TokenResult);
  match access_token result with
  | Some graph_token =>
      let headers := [(u "Authorization", u "Bearer " ++ graph_token)] in
      graph_response ← call_get graph_me headers;
      groups_response ← call_get graph_memberOf headers;
      mret (mkHelloLocals token_decoded result (Some graph_response) (Some groups_response))
  | None => mret (mkHelloLocals token_decoded result None None)
  end.

(** Where the credential step of the search handler ends: with the
    headers of the outgoing search request, with an early
    [return jsonify({"error": ...}), status], or, in OBO mode without an
    access token in the result, in a branch the excerpt does not quote. *)
Inductive AuthOutcome :=
| Proceed (headers : list (str * str)) (auth_method : option str)
| ReturnEarly (error_text : str) (status : N)
| ExchangeFailed (result : TokenResult).

(** The search handler, lines 440-460 (OBO mode) and 468-476 (API key
    mode). *)
Definition search_auth (cfg : SearchConfig) (user_access_token : option str)
  : list Call * AuthOutcome :=
  if bool_decide (SEARCH_AUTH_MODE cfg = u "OBO") then
    let result := acquire_token_on_behalf_of user_access_token search_scopes in
    ([OnBehalfOf user_access_token search_scopes],
     match access_token result with
     | Some search_access_token =>
         Proceed [(u "Authorization", u "Bearer " ++ search_access_token);
                  (u "x-ms-query-source-authorization", search_access_token);
                  (u "Content-Type", u "application/json")] None
     | None => ExchangeFailed result
     end)
  else if negb (truthy (SEARCH_API_KEY cfg)) then
    ([], ReturnEarly (u "SEARCH_API_KEY not configured") 500)
  else
    ([], Proceed [(u "api-key", default [] (SEARCH_API_KEY cfg));
                  (u "Content-Type", u "application/json")] (Some (u "API Key"))).

End Handlers.

End AppPy.

(** ** The relay of the specification

    The batch dispatcher and the response normaliser of the specification
    have no counterpart among the sources. *)
Module Relay.

(** Modelled from the spec: section 3, [DownstreamTarget.authStrategy];
    no source file declares it. *)
Inductive AuthStrategy := Delegated | SharedSecret.

(** Modelled from the spec: section 3, [DownstreamTarget]; no source file
    declares it. *)
Record DownstreamTarget := mkTarget {
  name : string;
  baseUrl : string;
  requiredScope : string;
  authStrategy : AuthStrategy
}.

(** Modelled from the spec: section 3, [Credential]; no source file
    declares it. *)
Inductive Credential :=
| DelegatedToken (token : string) (expiry : Z) (scopeGrantedTo : string)
| SharedSecretKey (key : string).

(** Modelled from the spec: the enum tag of a [Credential], what
    [credentialKindUsed] records (section 3). *)
Definition credentialKind (c : Credential) : AuthStrategy :=
  match c with
  | DelegatedToken _ _ _ => Delegated
  | SharedSecretKey _ => SharedSecret
  end.

(** Modelled from the spec: section 3, the status of a
    [DownstreamResult]; no source file declares it. *)
Inductive Status := Success | AuthFailure | UpstreamError | Timeout.

(** Modelled from the spec: section 3, [DownstreamResult]; no source file
    declares it. *)
Record DownstreamResult := mkResult {
  target : string;
  status : Status;
  detail : string;
  credentialKindUsed : AuthStrategy
}.

(** Modelled from the spec: section 3, [Claims]; no source file declares
    it. *)
Record Claims := mkClaims {
  subjectId : string;
  tenantId : string;
  groupIds : gset string;
  claims_expiry : Z;
  audience : string
}.

(** Modelled from the spec: section 3, the overall status of a
    [RelayResponse]. *)
Inductive OverallStatus := AllSucceeded | PartialSuccess | Failure.

(** Modelled from the spec: section 3, [RelayResponse]; no source file
    declares it. *)
Record RelayResponse := mkRelayResponse {
  claims : Claims;
  results : list DownstreamResult;
  overall : OverallStatus
}.

(** Modelled from the spec: section 3, whether an entry reports
    [Success]. *)
Definition succeeded (r : DownstreamResult) : bool :=
  match status r with
  | Success => true
  | _ => false
  end.

(** Modelled from the spec: section 4.4, [normalize], absent from the
    sources. The overall status is [Failure] when an entry of a required
    target did not succeed, [PartialSuccess] when only entries of other
    targets did not, and success otherwise; the entries are passed on in
    their order, each with its [credentialKindUsed]. The contract hands
    [normalize] no credential, and the specification does not say how
    credential material inside a payload or an error detail would be told
    from other text: the redaction of section 4.4 is left out, a detail is
    passed on as the target gave it. *)
Definition normalize (c : Claims) (rs : list DownstreamResult) (requiredTargets : gset string)
  : RelayResponse :=
  let overall :=
    if existsb (fun r => negb (succeeded r) && bool_decide (target r ∈ requiredTargets)) rs
    then Failure
    else if existsb (fun r => negb (succeeded r)) rs then PartialSuccess
    else AllSucceeded in
  mkRelayResponse c rs overall.

Section Dispatch.

(** Modelled from the spec: section 4.3, one outbound call with the
    credential attached, its outcome captured as a status and a payload or
    error detail; the sources have no such call. *)
Variable attempt : DownstreamTarget -> Credential -> Claims -> string -> Status * string.

(** Modelled from the spec: section 4.3, one call of [dispatch]. A target
    is invoked with the credential resolved for it; a target without one is
    not invoked and has no entry. *)
Definition call_target (credentials : gmap string Credential) (c : Claims) (request : string)
  (t : DownstreamTarget) : option DownstreamResult :=
  cred ← credentials !! name t;
  Some (mkResult (name t) (attempt t cred c request).1 (attempt t cred c request).2
          (credentialKind cred)).

(** Modelled from the spec: the fan-in of section 4.3 and section 5. The
    outcome of the call with index [i] is filed under [i] when that call
    completes. *)
Definition file_outcome (outcomes slots : list (option DownstreamResult)) (i : nat)
  : list (option DownstreamResult) :=
  match outcomes !! i with
  | Some o => <[i := o]> slots
  | None => slots
  end.

(** Modelled from the spec: section 4.3, [dispatch], absent from the
    sources: all calls are issued, their outcomes arrive in the order
    [completion] (indices into [targets]), and the entries are assembled by
    target index. *)
Definition dispatch (completion : list nat) (targets : list DownstreamTarget)
  (credentials : gmap string Credential) (c : Claims) (request : string)
  : list DownstreamResult :=
  let outcomes := map (call_target credentials c request) targets in
  let slots := foldl (file_outcome outcomes) (replicate (length targets) None) completion in
  omap id slots.

End Dispatch.

End Relay.

(** ** More of the page and of its configuration *)

(** The built-ins that the other handlers of [Home.jsx] and the top of
    [authConfig.js] rely on. *)
Module JsMore.
Import Js.

(** The code points that [String.prototype.trim] strips: ECMAScript
    WhiteSpace and LineTerminator. *)
Definition is_js_whitespace (c : N) : bool :=
  (c =? 9) || (c =? 10) || (c =? 11) || (c =? 12) || (c =? 13) || (c =? 32)
  || (c =? 160) || (c =? 5760) || ((8192 <=? c) && (c <=? 8202))
  || (c =? 8232) || (c =? 8233) || (c =? 8239) || (c =? 8287)
  || (c =? 12288) || (c =? 65279).

Fixpoint trim_start (s : jsstring) : jsstring :=
  match s with
  | c :: rest => if is_js_whitespace c then trim_start rest else s
  | [] => []
  end.

(** [s.trim()] *)
Definition trim (s : jsstring) : jsstring :=
  reverse (trim_start (reverse (trim_start s))).

Fixpoint indexOf_from (s p : jsstring) (i : Z) : Z :=
  if prefix_of p s then i
  else match s with
       | [] => (-1)%Z
       | _ :: rest => indexOf_from rest p (i + 1)%Z
       end.

(** [s.indexOf(p)]: the position of the first occurrence, or -1. *)
Definition indexOf (s p : jsstring) : Z := indexOf_from s p 0.

(** The decimal mantissa and exponent that a JSON number literal
    writes: the literal denotes [mantissa * 10 ^ exponent], up to its
    sign. *)
Definition literal_parts (lit : jsstring) : N * Z :=
  let unsigned := match lit with
                  | c :: r => if c =? 45 then r else lit
                  | [] => lit
                  end in
  let '(int, s1) := take_digits unsigned in
  let '(frac, s2) := match s1 with
                     | c :: r => if c =? 46 then take_digits r else ([], s1)
                     | [] => ([], s1)
                     end in
  let exponent :=
    match s2 with
    | c :: r =>
        if (c =? 101) || (c =? 69) then
          match r with
          | x :: r0 =>
              if x =? 45 then (- Z.of_N (decimal_value (take_digits r0).1))%Z
              else if x =? 43 then Z.of_N (decimal_value (take_digits r0).1)
              else Z.of_N (decimal_value (take_digits r).1)
          | [] => 0%Z
          end
        else 0%Z
    | [] => 0%Z
    end in
  (decimal_value (int ++ frac), (exponent - Z.of_nat (length frac))%Z).

(** Whether the double that a number literal is read as is zero: the
    digits are all zero, or the value is at most [2 ^ -1075], half the
    least positive double, and rounds to zero. *)
Definition denotes_zero (lit : jsstring) : bool :=
  let '(mantissa, exponent) := literal_parts lit in
  (mantissa =? 0)
  || ((exponent <? 0)%Z && (mantissa * 2 ^ 1075 <=? 10 ^ Z.to_N (- exponent))).

(** ToBoolean on a parsed value. *)
Definition truthy (v : JSValue) : bool :=
  match v with
  | JNull => false
  | JBool b => b
  | JNumber lit => negb (denotes_zero lit)
  | JString s => negb (bool_decide (s = []))
  | JArray _ | JObject _ => true
  end.

(** The [TypeError] of reading [.error] of [null]. *)
Definition null_error (engine : Engine) : JsError :=
  mkError TypeError (engine (PropertyOfNull (u "error"))).

(** [data.error] on a parsed value: a member of an object ([None] for
    [undefined]), [undefined] on the other values, a [TypeError] on
    [null]. *)
Definition read_error (engine : Engine) (data : JSValue) : Completion (option JSValue) :=
  match data with
  | JNull => Throw (null_error engine)
  | JObject _ => Return (get_member (u "error") data)
  | _ => Return None
  end.

Definition is_high_surrogate (c : N) : bool := (55296 <=? c) && (c <=? 56319).
Definition is_low_surrogate (c : N) : bool := (56320 <=? c) && (c <=? 57343).

(** [\uXXXX], four lower-case hexadecimal digits. *)
Definition unicode_escape (c : N) : jsstring :=
  [92; 117; hex_digit (c / 4096); hex_digit ((c / 256) mod 16);
   hex_digit ((c / 16) mod 16); hex_digit (c mod 16)].

(** QuoteJSONString on one code unit that is not the first half of a
    surrogate pair. *)
Definition quote_unit (c : N) : jsstring :=
  if c =? 8 then [92; 98] else if c =? 9 then [92; 116] else if c =? 10 then [92; 110]
  else if c =? 12 then [92; 102] else if c =? 13 then [92; 114]
  else if c =? 34 then [92; 34] else if c =? 92 then [92; 92]
  else if (c <? 32) || is_high_surrogate c || is_low_surrogate c then unicode_escape c
  else [c].

(** The characters QuoteJSONString writes between the quotes: a
    surrogate pair is kept, a lone surrogate is escaped. *)
Fixpoint quote_units (s : jsstring) : jsstring :=
  match s with
  | [] => []
  | c :: rest =>
      if is_high_surrogate c then
        match rest with
        | d :: rest' =>
            if is_low_surrogate d then c :: d :: quote_units rest'
            else unicode_escape c ++ quote_units rest
        | [] => unicode_escape c
        end
      else quote_unit c ++ quote_units rest
  end.

(** [JSON.stringify({ query: searchQuery })] *)
Definition JSON_stringify_query (searchQuery : jsstring) : jsstring :=
  [123; 34; 113; 117; 101; 114; 121; 34; 58; 34] ++ quote_units searchQuery ++ [34; 125].

End JsMore.

(** The two other handlers of [src/pages/Home.jsx]. *)
Module HomeHandlers.
Import Js JsMore Config Browser ApiCall Home.

(** [API_ENDPOINTS.search] of [src/config.js] *)
Definition API_ENDPOINTS_search : jsstring :=
  PYTHON_API_CONFIG_baseUrl ++ u "/api/search-unified".

Definition set_token_cells (claims : option JSValue) (loading' : bool) (st : State) : State :=
  mkState claims loading' (oboLoading st) (oboResponse st) (oboError st)
    (searchQuery st) (searchResults st) (searchError st) (searchLoading st)
    (searchTokenClaims st).

(** [handleRequestAccessToken], lines 64-86: the log of calls and the
    state once the promise chain has settled. *)
Definition handleRequestAccessToken (w : World) (st : State) : list Event * State :=
  match getActiveAccount w with
  | None => ([MsalGetActiveAccount], st)
  | Some account =>
      let asked := [MsalGetActiveAccount; MsalAcquireTokenSilent apiRequest_scopes account] in
      let failed := (asked ++ [ConsoleLog (u "Error acquiring token:")],
                     set_token_cells (accessTokenClaims st) false st) in
      match acquireTokenSilent w apiRequest_scopes account with
      | Return accessToken =>
          match parseJwt (engine w) accessToken with
          | Return claims =>
              (asked ++ [ConsoleLog (u "Access token acquired for Python OBO API")],
               set_token_cells (cell_of claims) false st)
          | Throw error => failed
          end
      | Throw error => failed
      end
  end.

(** The cells that [handleAISearch] writes: [searchResults],
    [searchError] and [searchLoading]. [searchError] is given strings,
    and in one place [data.error], any value of the response. *)
Record SearchCells := mkSearchCells {
  results : option JSValue;
  error : option JSValue;
  searching : bool
}.

Definition search_consent_guidance : jsstring :=
  u "Consent required: Please grant admin consent in Azure Portal for AI Search permission.".

(** The options of the search request, lines 147-155. *)
Definition search_init (accessToken searchQuery : jsstring) : RequestInit :=
  mkRequestInit (u "POST")
    [(u "Authorization", u "Bearer " ++ accessToken);
     (u "Content-Type", u "application/json")]
    (Some (JSON_stringify_query searchQuery)).

(** [data.error || 'Failed to perform search'] *)
Definition error_or_fallback (engine : Engine) (data : JSValue) : Completion JSValue :=
  member ← read_error engine data;
  match member with
  | Some v => if truthy v then Return v else Return (JString (u "Failed to perform search"))
  | None => Return (JString (u "Failed to perform search"))
  end.

(** The [try] block of [handleAISearch], lines 139-165: the cells as the
    block leaves them when it does not throw. *)
Definition search_try (w : World) (account : Account) (searchQuery : jsstring)
  : Run SearchCells :=
  emit (MsalAcquireTokenSilent apiRequest_scopes account);;
  accessToken ← lift (acquireTokenSilent w apiRequest_scopes account);
  emit (Fetch API_ENDPOINTS_search (search_init accessToken searchQuery));;
  result ← lift (fetch w API_ENDPOINTS_search (search_init accessToken searchQuery));
  data ← lift (json (engine w) result);
  if ok result then mret (mkSearchCells (cell_of data) None false)
  else
    shown ← lift (error_or_fallback (engine w) data);
    mret (mkSearchCells None (cell_of shown) false).

(** [handleAISearch], lines 122-176: the log of calls and the cells once
    the handler has run to its end. *)
Definition handleAISearch (w : World) (searchQuery : jsstring) (cells : SearchCells)
  : list Event * SearchCells :=
  match getActiveAccount w with
  | None =>
      ([MsalGetActiveAccount],
       mkSearchCells (results cells) (Some (JString (u "No active account. Please sign in.")))
         (searching cells))
  | Some account =>
      if bool_decide (trim searchQuery = []) then
        ([MsalGetActiveAccount],
         mkSearchCells (results cells) (Some (JString (u "Please enter a search query")))
           (searching cells))
      else
        match search_try w account searchQuery with
        | (t, Return cells') => (MsalGetActiveAccount :: t, cells')
        | (t, Throw failure) =>
            (MsalGetActiveAccount :: t ++ [ConsoleError (u "Error performing AI Search:") failure],
             mkSearchCells None
               (Some (JString (if is_consent_error failure then search_consent_guidance
                               else err_message failure)))
               false)
        end
  end.

End HomeHandlers.

(** [src/authConfig.js], lines 7-31, with [CACHE_CONFIG] of
    [src/config.js]. *)
Module AuthConfig.
Import Js JsMore.

(** [CACHE_CONFIG.storeAuthStateInCookie] *)
Definition CACHE_CONFIG_storeAuthStateInCookie : bool := false.

(** [msie > 0 || msie11 > 0] *)
Definition isIE (ua : jsstring) : bool :=
  (0 <? indexOf ua (u "MSIE "))%Z || (0 <? indexOf ua (u "Trident/"))%Z.

(** [msedge > 0] *)
Definition isEdge (ua : jsstring) : bool := (0 <? indexOf ua (u "Edge/"))%Z.

(** [firefox > 0] *)
Definition isFirefox (ua : jsstring) : bool := (0 <? indexOf ua (u "Firefox"))%Z.

(** [msalConfig.cache.storeAuthStateInCookie] for the user agent [ua] *)
Definition storeAuthStateInCookie (ua : jsstring) : bool :=
  CACHE_CONFIG_storeAuthStateInCookie || isIE ua || isEdge ua || isFirefox ua.

End AuthConfig.

(** What else can be asked of a log of calls. *)
Module Observe.
Import Js Browser.

Definition is_console_error (e : Event) : bool :=
  match e with
  | ConsoleError _ _ => true
  | _ => false
  end.

End Observe.

(** * Theorems *)

(** ** [parseJwt] *)

Section ParseJwt.
Import Js Home.

Lemma split_on_nonempty (sep : N) (s : jsstring) : split_on sep s ≠ [].
Proof.
  induction s as [|c s IH]; simpl; [done|].
  destruct (c =? sep); [done|]. by destruct (split_on sep s).
Qed.

(** A string without the separator is a single piece. *)
Lemma split_on_absent (sep : N) (s : jsstring) : sep ∉ s → split_on sep s = [s].
Proof.
  induction s as [|c s IH]; intros Hs; simpl; [done|].
  apply not_elem_of_cons in Hs as [Hc Hs].
  destruct (N.eqb_spec c sep) as [->|_]; [done|]. by rewrite IH.
Qed.

(** The first separator ends the first piece. *)
Lemma split_on_first (sep : N) (h rest : jsstring) :
  sep ∉ h → split_on sep (h ++ sep :: rest) = h :: split_on sep rest.
Proof.
  induction h as [|c h IH]; intros Hh; simpl.
  - by rewrite N.eqb_refl.
  - apply not_elem_of_cons in Hh as [Hc Hh].
    destruct (N.eqb_spec c sep) as [->|_]; [done|]. by rewrite IH.
Qed.

Lemma second_segment_of_two (h p : jsstring) :
  46 ∉ h → 46 ∉ p → split_on 46 (h ++ 46 :: p) !! 1%nat = Some p.
Proof. intros Hh Hp. by rewrite split_on_first, split_on_absent. Qed.

Lemma second_segment_of_more (h p rest : jsstring) :
  46 ∉ h → 46 ∉ p → split_on 46 (h ++ 46 :: p ++ 46 :: rest) !! 1%nat = Some p.
Proof. intros Hh Hp. by rewrite !split_on_first. Qed.

(** [parseJwt] on the empty string, on one, two and four segments, on a
    payload that is not base64, not UTF-8, not JSON, and on payloads that
    decode. *)
Example parseJwt_runs :
  parseJwt terse_engine [] = Return JNull ∧
  parseJwt terse_engine (u "eyJhbGciOiJub25lIn0") = Return JNull ∧
  parseJwt terse_engine (u "eyJhbGciOiJub25lIn0.") = Return JNull ∧
  parseJwt terse_engine (u "eyJhbGciOiJub25lIn0.e30") = Return (JObject []) ∧
  parseJwt terse_engine (u "eyJhbGciOiJub25lIn0.e30.c2ln.more") = Return (JObject []) ∧
  parseJwt terse_engine (u "eyJhbGciOiJub25lIn0.e3*.c2ln") = Return JNull ∧
  parseJwt terse_engine (u "eyJhbGciOiJub25lIn0._w.c2ln") = Return JNull ∧
  parseJwt terse_engine (u "eyJhbGciOiJub25lIn0.e30x.c2ln") = Return JNull ∧
  parseJwt terse_engine (u "eyJhbGciOiJub25lIn0.eyJleHAiOjE3MDAwMDAwMDAsIm5hbWUiOiJKb3PDqSJ9.c2ln")
    = Return (JObject [(u "exp", JNumber (u "1700000000"));
                       (u "name", JString [74; 111; 115; 233])]).
Proof. by vm_compute. Qed.

(** C9. Whatever string it is given, [parseJwt] completes normally and
    never throws: it returns [null] when a step of the decoding throws
    (no second segment, not base64, not UTF-8, not JSON), and otherwise the
    value [JSON.parse] produced for the payload. *)
Theorem parseJwt_total (engine : Engine) (token : jsstring) :
  ∃ v : JSValue,
    parseJwt engine token = Return v ∧
    (parseJwt_try engine token = Return v ∨
     (v = JNull ∧ ∃ e, parseJwt_try engine token = Throw e)).
Proof.
  unfold parseJwt, try_catch.
  destruct (parseJwt_try engine token) as [v|e]; eauto 6.
Qed.

(** C4, as stated, fails on [parseJwt]: a token whose payload carries
    [exp = 1] decodes to its claims at any later time, and a token of two
    segments decodes as well. *)
Lemma parseJwt_ignores_expiry_and_segment_count :
  ¬ (∀ (now : Z) (token : jsstring) (claims : JSValue) (exp : Z),
        parseJwt_try terse_engine token = Return claims →
        get_member (u "exp") claims ≫= integer_value = Some exp →
        (exp < now)%Z →
        parseJwt terse_engine token = Return JNull) ∧
  ¬ (∀ token : jsstring,
        length (split_on 46 token) ≠ 3%nat → parseJwt terse_engine token = Return JNull).
Proof.
  split.
  - intros H.
    specialize (H 1700000000%Z (u "eyJhbGciOiJub25lIn0.eyJleHAiOjF9.c2ln")
                  (JObject [(u "exp", JNumber (u "1"))]) 1%Z).
    assert (parseJwt terse_engine (u "eyJhbGciOiJub25lIn0.eyJleHAiOjF9.c2ln") = Return JNull)
      as Hnull.
    { apply H; [by vm_compute | by vm_compute | lia]. }
    vm_compute in Hnull. discriminate Hnull.
  - intros H.
    specialize (H (u "eyJhbGciOiJub25lIn0.eyJleHAiOjF9")).
    assert (parseJwt terse_engine (u "eyJhbGciOiJub25lIn0.eyJleHAiOjF9") = Return JNull) as Hnull.
    { apply H. vm_compute. lia. }
    vm_compute in Hnull. discriminate Hnull.
Qed.

(** C4, amended. [parseJwt] reports every failure as [null] and looks at
    the second segment only: a token without a dot gives [null]; whenever
    a step of the decoding throws the result is [null]; whenever the
    decoding succeeds the claims are returned as they are, no expiry being
    compared with any clock; and segments after the second do not change
    the result. *)
Theorem parseJwt_reads_second_segment_only (engine : Engine) (token : jsstring) :
  (46 ∉ token → parseJwt engine token = Return JNull) ∧
  (∀ e, parseJwt_try engine token = Throw e → parseJwt engine token = Return JNull) ∧
  (∀ claims, parseJwt_try engine token = Return claims →
             parseJwt engine token = Return claims) ∧
  (∀ h p rest, token = h ++ 46 :: p ++ 46 :: rest → 46 ∉ h → 46 ∉ p →
               parseJwt engine token = parseJwt engine (h ++ 46 :: p)).
Proof.
  repeat split.
  - intros Hdot. unfold parseJwt, parseJwt_try.
    by rewrite (split_on_absent _ _ Hdot).
  - intros e He. unfold parseJwt. by rewrite He.
  - intros claims Hc. unfold parseJwt. by rewrite Hc.
  - intros h p rest -> Hh Hp. unfold parseJwt, parseJwt_try.
    by rewrite second_segment_of_more, second_segment_of_two.
Qed.

Lemma parseJwt_reads_second_segment_only_witness :
  parseJwt terse_engine (u "not-a-token") = Return JNull ∧
  parseJwt terse_engine (u "e30.!!.c2ln") = Return JNull ∧
  parseJwt terse_engine (u "e30.eyJleHAiOjF9.c2ln")
    = Return (JObject [(u "exp", JNumber (u "1"))]) ∧
  parseJwt terse_engine (u "e30.eyJleHAiOjF9.c2ln.more")
    = parseJwt terse_engine (u "e30.eyJleHAiOjF9").
Proof.
  split; [|split; [|split]].
  - apply (proj1 (parseJwt_reads_second_segment_only terse_engine (u "not-a-token"))).
    apply (bool_decide_unpack _). by vm_compute.
  - apply (proj1 (proj2 (parseJwt_reads_second_segment_only terse_engine (u "e30.!!.c2ln")))
             invalid_character).
    by vm_compute.
  - apply (proj1 (proj2 (proj2 (parseJwt_reads_second_segment_only terse_engine
                                  (u "e30.eyJleHAiOjF9.c2ln"))))).
    by vm_compute.
  - apply (proj2 (proj2 (proj2 (parseJwt_reads_second_segment_only terse_engine
                                  (u "e30.eyJleHAiOjF9.c2ln.more"))))
             (u "e30") (u "eyJleHAiOjF9") (u "c2ln.more")).
    + by vm_compute.
    + apply (bool_decide_unpack _). by vm_compute.
    + apply (bool_decide_unpack _). by vm_compute.
Defined.

End ParseJwt.

(** ** Decimal rendering *)

Section Decimal.
Import Js.

Lemma decimal_value_snoc (ds : jsstring) (d : N) :
  decimal_value (ds ++ [d]) = 10 * decimal_value ds + (d - 48).
Proof. unfold decimal_value. by rewrite fold_left_app. Qed.

Lemma dec_fuel_step (fuel : nat) (n : N) (acc : jsstring) :
  dec_fuel (S fuel) n acc =
    if n <? 10 then (48 + n mod 10) :: acc
    else dec_fuel fuel (n / 10) ((48 + n mod 10) :: acc).
Proof. reflexivity. Qed.

Lemma dec_fuel_digits (fuel : nat) : ∀ (n : N) (acc : jsstring),
  n < 10 ^ N.of_nat (S fuel) →
  ∃ ds, dec_fuel (S fuel) n acc = ds ++ acc ∧
        Forall (λ d, is_digit d = true) ds ∧ decimal_value ds = n.
Proof.
  induction fuel as [|fuel IH]; intros n acc Hn.
  - change (10 ^ N.of_nat 1) with 10 in Hn.
    exists [48 + n mod 10]. rewrite dec_fuel_step.
    destruct (N.ltb_spec n 10) as [_|?]; [|lia].
    rewrite (N.mod_small n 10) by lia. split; [done|]. split.
    + constructor; [|constructor]. unfold is_digit.
      apply andb_true_iff. split; apply N.leb_le; lia.
    + unfold decimal_value. simpl. lia.
  - rewrite dec_fuel_step. destruct (N.ltb_spec n 10) as [Hlt|Hge].
    + exists [48 + n mod 10].
      rewrite (N.mod_small n 10) by lia. split; [done|]. split.
      * constructor; [|constructor]. unfold is_digit.
        apply andb_true_iff. split; apply N.leb_le; lia.
      * unfold decimal_value. simpl. lia.
    + assert (n / 10 < 10 ^ N.of_nat (S fuel)) as Hq.
      { apply N.Div0.div_lt_upper_bound.
        replace (N.of_nat (S (S fuel))) with (N.succ (N.of_nat (S fuel))) in Hn by lia.
        by rewrite N.pow_succ_r' in Hn. }
      destruct (IH (n / 10) ((48 + n mod 10) :: acc) Hq) as (ds & Heq & Hds & Hval).
      exists (ds ++ [48 + n mod 10]). split; [|split].
      * by rewrite Heq, <- app_assoc.
      * apply Forall_app. split; [done|]. constructor; [|constructor].
        pose proof (N.mod_upper_bound n 10 ltac:(lia)) as Hr. unfold is_digit.
        revert Hr. generalize (n mod 10). intros r Hr.
        apply andb_true_iff. split; apply N.leb_le; lia.
      * rewrite decimal_value_snoc, Hval.
        pose proof (N.div_mod n 10 ltac:(lia)) as Hdm.
        revert Hdm. generalize (n mod 10) (n / 10). intros r q Hdm. lia.
Qed.

(** [toString10] writes digits only, and they read back as the number. *)
Lemma toString10_digits (n : N) :
  Forall (λ d, is_digit d = true) (toString10 n) ∧ decimal_value (toString10 n) = n.
Proof.
  unfold toString10.
  destruct (dec_fuel_digits (N.to_nat (N.log2 n)) n []) as (ds & Heq & Hds & Hval).
  - replace (N.of_nat (S (N.to_nat (N.log2 n)))) with (N.succ (N.log2 n)) by lia.
    destruct (decide (n = 0)) as [->|Hn]; [done|].
    pose proof (N.log2_spec n ltac:(lia)) as [_ Hup].
    eapply N.lt_le_trans; [exact Hup|].
    apply N.pow_le_mono_l. lia.
  - rewrite Heq, app_nil_r. done.
Qed.

Lemma toString10_inj (m n : N) : toString10 m = toString10 n → m = n.
Proof.
  intros H. rewrite <- (proj2 (toString10_digits m)), <- (proj2 (toString10_digits n)).
  by rewrite H.
Qed.

(** Two digit runs followed by a colon agree when the whole texts do. *)
Lemma digits_before_colon (d1 d2 t1 t2 : jsstring) :
  Forall (λ d, is_digit d = true) d1 → Forall (λ d, is_digit d = true) d2 →
  d1 ++ 58 :: t1 = d2 ++ 58 :: t2 → d1 = d2 ∧ t1 = t2.
Proof.
  intros H1. revert d2. induction H1 as [|x d1 Hx H1 IH]; intros d2 H2 Heq.
  - destruct H2 as [|y d2 Hy H2]; simpl in Heq.
    + by inversion Heq.
    + inversion Heq; subst. by vm_compute in Hy.
  - destruct H2 as [|y d2 Hy H2]; simpl in Heq.
    + inversion Heq; subst. by vm_compute in Hx.
    + inversion Heq; subst. destruct (IH d2 H2) as [-> ->]; done.
Qed.

End Decimal.

(** ** [callPythonOboApi] *)

Section ApiCallFacts.
Import Js Config Browser ApiCall.

(** The five ways the request can end: with the header refused, before
    anything is logged or sent, or in one of the four ways a sent request
    can end. *)
Lemma call_with_token_cases (w : World) (accessToken : jsstring) :
  call_with_token w accessToken =
    let appended := HeadersAppend (u "Authorization") (bearer accessToken) in
    match Headers_append (engine w) [] (u "Authorization") (bearer accessToken) with
    | Throw e => ([appended], Throw e)
    | Return headers =>
        let sent := [appended;
                     ConsoleLog (u "Calling Python OBO API at: " ++ pythonApiConfig_endpoint);
                     Fetch pythonApiConfig_endpoint (options headers)] in
        let logged := ConsoleError (u "Error calling Python OBO API:") in
        match fetch w pythonApiConfig_endpoint (options headers) with
        | Return response =>
            if ok response then
              match json (engine w) response with
              | Return v => (sent, Return v)
              | Throw e => (sent ++ [logged e], Throw e)
              end
            else
              (sent ++ [logged (mkError Error (http_error_message response))],
               Throw (mkError Error (http_error_message response)))
        | Throw e => (sent ++ [logged e], Throw e)
        end
    end.
Proof.
  unfold call_with_token.
  cbn -[u pythonApiConfig_endpoint json http_error_message bearer options Headers_append].
  destruct (Headers_append _ _ _ _) as [headers|e];
    cbn -[u pythonApiConfig_endpoint json http_error_message bearer options]; [|reflexivity].
  destruct (fetch w _ _) as [response|e];
    cbn -[u pythonApiConfig_endpoint json http_error_message bearer options].
  - destruct (ok response); cbn -[u pythonApiConfig_endpoint json http_error_message bearer options].
    + destruct (json (engine w) response); reflexivity.
    + reflexivity.
  - reflexivity.
Qed.

(** A token of visible bytes goes into the header as it is. *)
Lemma bearer_kept (accessToken : jsstring) :
  accessToken ≠ [] →
  Forall (λ c, 32 < c ∧ c <= 255) accessToken →
  header_value_accepted (bearer accessToken) = true ∧
  normalize_header_value (bearer accessToken) = bearer accessToken.
Proof.
  intros Hne Hvisible.
  assert (normalize_header_value (bearer accessToken) = bearer accessToken) as Hkept.
  { unfold normalize_header_value, bearer.
    change (strip_leading (u "Bearer " ++ accessToken)) with (u "Bearer " ++ accessToken).
    rewrite reverse_app.
    destruct (reverse accessToken) as [|c rest] eqn:Hrev.
    { apply (f_equal reverse) in Hrev. rewrite reverse_involutive in Hrev. done. }
    assert (32 < c ∧ c <= 255) as [Hc _].
    { apply (proj1 (Forall_forall _ _) Hvisible).
      apply elem_of_reverse. rewrite Hrev. by left. }
    cbn [app strip_leading]. unfold is_http_whitespace.
    rewrite !(proj2 (N.eqb_neq c _)) by lia. cbn [orb].
    change (c :: rest ++ reverse (u "Bearer ")) with ((c :: rest) ++ reverse (u "Bearer ")).
    by rewrite <- Hrev, <- reverse_app, reverse_involutive. }
  split; [|done]. unfold header_value_accepted. rewrite Hkept.
  apply andb_true_iff. split; apply forallb_forall; intros c Hin%list_elem_of_In.
  - unfold bearer in Hin. apply elem_of_app in Hin as [Hin|Hin].
    + revert c Hin. apply Forall_forall. apply (bool_decide_unpack _). by vm_compute.
    + apply (proj1 (Forall_forall _ _) Hvisible) in Hin. apply N.leb_le. lia.
  - unfold bearer in Hin. apply elem_of_app in Hin as [Hin|Hin].
    + revert c Hin. apply Forall_forall. apply (bool_decide_unpack _). by vm_compute.
    + apply (proj1 (Forall_forall _ _) Hvisible) in Hin.
      rewrite !(proj2 (N.eqb_neq c _)) by lia. done.
Qed.

Lemma callPythonOboApi_after_token (w : World) (arg : option jsstring)
  (acquired : list Event) (accessToken : jsstring) :
  token_step w arg = (acquired, Return accessToken) →
  callPythonOboApi w arg =
    (acquired ++ (call_with_token w accessToken).1, (call_with_token w accessToken).2).
Proof.
  intros Htok. unfold callPythonOboApi. cbn -[call_with_token token_step].
  rewrite Htok. cbn -[call_with_token]. by destruct (call_with_token w accessToken).
Qed.

Lemma callPythonOboApi_token_failure (w : World) (arg : option jsstring)
  (acquired : list Event) (e : JsError) :
  token_step w arg = (acquired, Throw e) → callPythonOboApi w arg = (acquired, Throw e).
Proof.
  intros Htok. unfold callPythonOboApi. cbn -[call_with_token token_step].
  by rewrite Htok.
Qed.

Lemma token_step_given (w : World) (accessToken : jsstring) :
  accessToken ≠ [] → token_step w (Some accessToken) = ([], Return accessToken).
Proof. intros Hne. by destruct accessToken. Qed.

Lemma callPythonOboApi_with_token (w : World) (accessToken : jsstring) :
  accessToken ≠ [] →
  callPythonOboApi w (Some accessToken) = call_with_token w accessToken.
Proof.
  intros Hne. rewrite (callPythonOboApi_after_token _ _ _ _ (token_step_given w _ Hne)).
  by destruct (call_with_token w accessToken).
Qed.

(** The token step never sends a request. *)
Lemma token_step_no_fetch (w : World) (arg : option jsstring) :
  filter is_fetch (token_step w arg).1 = [].
Proof.
  unfold token_step. destruct (falsy arg); [|done].
  unfold acquire. cbn. destruct (getActiveAccount w) as [account|]; [|done].
  cbn. by destruct (acquireTokenSilent w _ account).
Qed.

(** C10, as stated, fails on [callPythonOboApi]: the header is built
    through [Headers], which takes trailing white space off the value and
    refuses a value with a line feed inside. A token that ends in a space
    goes out without the space, and with a token that holds a line feed the
    call rejects with a [TypeError] before anything is sent. *)
Lemma callPythonOboApi_header_is_normalized :
  let w := mkWorld None (fun _ _ => Return (u "unused"))
             (fun _ _ => Return (mkResponse 200 (u "OK") (u "{}"))) terse_engine in
  filter is_fetch (callPythonOboApi w (Some (u "eyJ0.eyJh.c2ln "))).1
    = [Fetch (u "http://localhost:5000/api/hello")
         (mkRequestInit (u "GET") [(u "Authorization", u "Bearer eyJ0.eyJh.c2ln")] None)] ∧
  (callPythonOboApi w (Some [97; 10; 98])).1
    = [HeadersAppend (u "Authorization") (u "Bearer " ++ [97; 10; 98])] ∧
  ∃ message, (callPythonOboApi w (Some [97; 10; 98])).2 = Throw (mkError TypeError message).
Proof. repeat split; [by vm_compute..|]. eexists. by vm_compute. Qed.

(** C10, amended. Called with a non-empty token, [callPythonOboApi] never
    consults the MSAL instance and first hands [Headers.append] the value
    [Bearer <token>] with the token exactly as given. When [Headers] takes
    the value, one request is sent, whose [Authorization] header is that
    value without trailing white space; when it does not, the call rejects
    with the [TypeError] and nothing is logged or sent. A token of visible
    bytes (code units 33 to 255) is always taken, and goes out byte for
    byte. *)
Theorem callPythonOboApi_sends_given_token (w : World) (accessToken : jsstring) :
  accessToken ≠ [] →
  filter is_msal (callPythonOboApi w (Some accessToken)).1 = [] ∧
  (if header_value_accepted (u "Bearer " ++ accessToken)
   then
     ∃ tail : list Event,
       (callPythonOboApi w (Some accessToken)).1 =
         [HeadersAppend (u "Authorization") (u "Bearer " ++ accessToken);
          ConsoleLog (u "Calling Python OBO API at: " ++ pythonApiConfig_endpoint);
          Fetch pythonApiConfig_endpoint
            (mkRequestInit (u "GET")
               [(u "Authorization", normalize_header_value (u "Bearer " ++ accessToken))] None)]
         ++ tail ∧
       (tail = [] ∨ ∃ e, tail = [ConsoleError (u "Error calling Python OBO API:") e])
   else
     callPythonOboApi w (Some accessToken) =
       ([HeadersAppend (u "Authorization") (u "Bearer " ++ accessToken)],
        Throw (mkError TypeError (engine w (InvalidHeaderValue (u "Bearer " ++ accessToken)))))) ∧
  (Forall (λ c, 32 < c ∧ c <= 255) accessToken →
   header_value_accepted (u "Bearer " ++ accessToken) = true ∧
   normalize_header_value (u "Bearer " ++ accessToken) = u "Bearer " ++ accessToken).
Proof.
  intros Hne. rewrite (callPythonOboApi_with_token _ _ Hne), call_with_token_cases.
  cbv zeta. unfold Headers_append. fold (bearer accessToken).
  split; [|split; [|by apply bearer_kept]].
  - destruct (header_value_accepted (bearer accessToken)); [|reflexivity].
    destruct (fetch w _ _) as [response|e];
      [destruct (ok response); [destruct (json (engine w) response)|]|]; reflexivity.
  - destruct (header_value_accepted (bearer accessToken)); [|reflexivity].
    cbn [app].
    destruct (fetch w _ _) as [response|e];
      [destruct (ok response); [destruct (json (engine w) response)|]|].
    + exists []. split; [reflexivity|by left].
    + eexists [_]. split; [reflexivity|right; by eexists].
    + eexists [_]. split; [reflexivity|right; by eexists].
    + eexists [_]. split; [reflexivity|right; by eexists].
Qed.

Lemma callPythonOboApi_sends_given_token_witness :
  let w := mkWorld None (fun _ _ => Return (u "unused"))
             (fun _ _ => Return (mkResponse 200 (u "OK") (u "{}"))) terse_engine in
  let accessToken := u "eyJ0.eyJh.c2ln" in
  filter is_msal (callPythonOboApi w (Some accessToken)).1 = [] ∧
  (if header_value_accepted (u "Bearer " ++ accessToken)
   then
     ∃ tail : list Event,
       (callPythonOboApi w (Some accessToken)).1 =
         [HeadersAppend (u "Authorization") (u "Bearer " ++ accessToken);
          ConsoleLog (u "Calling Python OBO API at: " ++ pythonApiConfig_endpoint);
          Fetch pythonApiConfig_endpoint
            (mkRequestInit (u "GET")
               [(u "Authorization", normalize_header_value (u "Bearer " ++ accessToken))] None)]
         ++ tail ∧
       (tail = [] ∨ ∃ e, tail = [ConsoleError (u "Error calling Python OBO API:") e])
   else
     callPythonOboApi w (Some accessToken) =
       ([HeadersAppend (u "Authorization") (u "Bearer " ++ accessToken)],
        Throw (mkError TypeError (engine w (InvalidHeaderValue (u "Bearer " ++ accessToken)))))) ∧
  (Forall (λ c, 32 < c ∧ c <= 255) accessToken →
   header_value_accepted (u "Bearer " ++ accessToken) = true ∧
   normalize_header_value (u "Bearer " ++ accessToken) = u "Bearer " ++ accessToken).
Proof.
  intros w accessToken.
  apply (callPythonOboApi_sends_given_token w accessToken).
  by vm_compute.
Defined.

Lemma call_with_token_one_request (w : World) (accessToken : jsstring) :
  filter is_fetch (call_with_token w accessToken).1 =
    match Headers_append (engine w) [] (u "Authorization") (bearer accessToken) with
    | Return headers => [Fetch pythonApiConfig_endpoint (options headers)]
    | Throw _ => []
    end.
Proof.
  rewrite call_with_token_cases. cbv zeta.
  destruct (Headers_append _ _ _ _) as [headers|e]; [|reflexivity].
  destruct (fetch w _ _) as [response|e];
    [destruct (ok response); [destruct (json (engine w) response)|]|];
    reflexivity.
Qed.



(** C6, as stated, fails on [callPythonOboApi]: a 401 and a 500 answer
    end in the same kind of failure, a thrown [Error] that differs in its
    message only, and two 500 answers with different bodies end in the very
    same outcome, so the body is not carried. *)
Lemma callPythonOboApi_one_failure_kind_without_body :
  let answering r :=
    mkWorld None (fun _ _ => Return (u "unused")) (fun _ _ => Return r) terse_engine in
  let token := Some (u "eyJ0.eyJh.c2ln") in
  (callPythonOboApi (answering (mkResponse 401 (u "Unauthorized") (u "token rejected"))) token).2
    = Throw (mkError Error (u "HTTP 401: Unauthorized")) ∧
  (callPythonOboApi (answering (mkResponse 500 (u "Internal Server Error") (u "index offline"))) token).2
    = Throw (mkError Error (u "HTTP 500: Internal Server Error")) ∧
  callPythonOboApi (answering (mkResponse 500 (u "Internal Server Error") (u "index offline"))) token
    = callPythonOboApi (answering (mkResponse 500 (u "Internal Server Error") (u "quota exceeded"))) token.
Proof. by vm_compute. Qed.

(** The status can be read back from the message of the thrown error. *)
Lemma http_error_message_inj (r1 r2 : Response) :
  http_error_message r1 = http_error_message r2 →
  status r1 = status r2 ∧ statusText r1 = statusText r2.
Proof.
  unfold http_error_message. intros H.
  apply (app_inv_head (u "HTTP ")) in H.
  change (u ": " ++ statusText r1) with (58 :: 32 :: statusText r1) in H.
  change (u ": " ++ statusText r2) with (58 :: 32 :: statusText r2) in H.
  apply digits_before_colon in H; try apply toString10_digits.
  destruct H as [Hs Ht]. split; [by apply toString10_inj|by inversion Ht].
Qed.

(** C6, amended. Every answer outside 200-299, 401 and 403 included, ends
    [callPythonOboApi] in one and the same kind of failure: it rejects with
    an [Error] whose message is [HTTP <status>: <statusText>]. The message
    determines the status; the body is not read. An answer is the answer to
    the request that went out, with the headers that [Headers] took. *)
Theorem callPythonOboApi_rejects_non_2xx (w : World) (arg : option jsstring)
  (acquired : list Event) (accessToken : jsstring) (headers : list (jsstring * jsstring))
  (response : Response) :
  token_step w arg = (acquired, Return accessToken) →
  Headers_append (engine w) [] (u "Authorization") (u "Bearer " ++ accessToken)
    = Return headers →
  fetch w pythonApiConfig_endpoint (options headers) = Return response →
  ok response = false →
  (callPythonOboApi w arg).2 =
    Throw (mkError Error
             (u "HTTP " ++ toString10 (status response) ++ u ": " ++ statusText response)) ∧
  ∀ other : Response,
    http_error_message other = http_error_message response →
    status other = status response.
Proof.
  intros Htok Hheaders Hfetch Hok. split.
  - rewrite (callPythonOboApi_after_token _ _ _ _ Htok), call_with_token_cases.
    cbv zeta. unfold bearer. by rewrite Hheaders, Hfetch, Hok.
  - intros other H. by apply http_error_message_inj in H as [? _].
Qed.

Lemma callPythonOboApi_rejects_non_2xx_witness :
  (callPythonOboApi
     (mkWorld None (fun _ _ => Return (u "unused"))
        (fun _ _ => Return (mkResponse 403 (u "Forbidden") (u "role missing"))) terse_engine)
     (Some (u "eyJ0.eyJh.c2ln"))).2 =
    Throw (mkError Error (u "HTTP " ++ toString10 403 ++ u ": " ++ u "Forbidden")) ∧
  ∀ other : Response,
    http_error_message other
      = http_error_message (mkResponse 403 (u "Forbidden") (u "role missing")) →
    status other = 403.
Proof.
  apply (callPythonOboApi_rejects_non_2xx
           (mkWorld None (fun _ _ => Return (u "unused"))
              (fun _ _ => Return (mkResponse 403 (u "Forbidden") (u "role missing"))) terse_engine)
           (Some (u "eyJ0.eyJh.c2ln")) [] (u "eyJ0.eyJh.c2ln")
           [(u "Authorization", u "Bearer eyJ0.eyJh.c2ln")]
           (mkResponse 403 (u "Forbidden") (u "role missing"))).
  - by vm_compute.
  - by vm_compute.
  - by vm_compute.
  - by vm_compute.
Defined.

End ApiCallFacts.

(** ** The middle tier *)

Section AppPyFacts.
Import Js AppPy.

Context {Payload : Type}.
Variable jwt_decode : option str → Exception + Payload.
Variable acquire_token_on_behalf_of : option str → list str → TokenResult.
Variable requests_get : str → list (str * str) → Exception + HttpResponse.

(** C1. When the bearer token of a request fails validation (the token
    cannot be taken from the header, or [jwt.decode] raises), [hello] ends
    there with that exception and has made no call at all: neither the
    token exchange nor any request to a downstream resource. *)
Theorem hello_stops_at_failed_validation (auth_header : option str) (e : Exception) :
  (bearer_token auth_header = inl e ∨
   ∃ token, bearer_token auth_header = inr token ∧ jwt_decode token = inl e) →
  hello jwt_decode acquire_token_on_behalf_of requests_get auth_header = ([], inl e).
Proof.
  unfold AppPy.hello. intros [Hb | (token & Hb & Hd)]; rewrite Hb; cbn; [done|].
  by rewrite Hd.
Qed.



(** C3, amended. In API key mode the search handler never calls the token
    exchange; it takes the key from the static configuration, and when no
    key is configured it ends the request with the error
    [SEARCH_API_KEY not configured] and status 500. *)
Theorem search_auth_api_key_mode (cfg : SearchConfig) (user_access_token : option str) :
  SEARCH_AUTH_MODE cfg ≠ u "OBO" →
  length (filter is_exchange (search_auth acquire_token_on_behalf_of cfg user_access_token).1)
    = 0%nat ∧
  search_auth acquire_token_on_behalf_of cfg user_access_token =
    ([], match SEARCH_API_KEY cfg with
         | Some (c :: key) =>
             Proceed [(u "api-key", c :: key); (u "Content-Type", u "application/json")]
               (Some (u "API Key"))
         | _ => ReturnEarly (u "SEARCH_API_KEY not configured") 500
         end).
Proof.
  intros Hmode. unfold AppPy.search_auth. rewrite bool_decide_eq_false_2 by done.
  by destruct (SEARCH_API_KEY cfg) as [[|c key]|].
Qed.

End AppPyFacts.

Section AppPyRuns.
Import Js AppPy.

(** C3, as stated, fails on the search handler: in API key mode with the
    key set to the empty string it returns no credential but an error
    response. *)
Lemma search_auth_without_key :
  search_auth (fun _ _ => mkTokenResult (Some (u "search-token")) None None)
    (SEARCH_CONFIG {[ u "SEARCH_AUTH_MODE" := u "API_KEY"; u "SEARCH_API_KEY" := [] ]}
       (u "https://contoso.search.windows.net") (u "parks"))
    (Some (u "eyJ0.eyJh.c2ln"))
  = ([], ReturnEarly (u "SEARCH_API_KEY not configured") 500).
Proof. by vm_compute. Qed.

(** With nothing set in the environment the mode is OBO, and the key is
    the placeholder of the configuration file. *)
Example SEARCH_CONFIG_defaults :
  SEARCH_CONFIG ∅ (u "https://contoso.search.windows.net") (u "parks")
  = mkSearchConfig (u "OBO") (Some (u "YOUR_API_KEY"))
      (u "https://contoso.search.windows.net") (u "parks").
Proof. by vm_compute. Qed.

Lemma search_auth_api_key_mode_witness :
  let cfg := SEARCH_CONFIG {[ u "SEARCH_AUTH_MODE" := u "API_KEY";
                              u "SEARCH_API_KEY" := u "0123456789abcdef" ]}
               (u "https://contoso.search.windows.net") (u "parks") in
  let exchange := fun (_ : option str) (_ : list str) =>
                    mkTokenResult (Some (u "search-token")) None None in
  length (filter is_exchange (search_auth exchange cfg (Some (u "eyJ0.eyJh.c2ln"))).1) = 0%nat ∧
  search_auth exchange cfg (Some (u "eyJ0.eyJh.c2ln"))
  = ([], match SEARCH_API_KEY cfg with
         | Some (c :: key) =>
             Proceed [(u "api-key", c :: key); (u "Content-Type", u "application/json")]
               (Some (u "API Key"))
         | _ => ReturnEarly (u "SEARCH_API_KEY not configured") 500
         end).
Proof.
  intros cfg exchange.
  apply (search_auth_api_key_mode exchange cfg (Some (u "eyJ0.eyJh.c2ln"))).
  by vm_compute.
Defined.

(** The same run, evaluated. *)
Example search_auth_with_key :
  search_auth (fun _ _ => mkTokenResult (Some (u "search-token")) None None)
    (SEARCH_CONFIG {[ u "SEARCH_AUTH_MODE" := u "API_KEY";
                      u "SEARCH_API_KEY" := u "0123456789abcdef" ]}
       (u "https://contoso.search.windows.net") (u "parks"))
    (Some (u "eyJ0.eyJh.c2ln"))
  = ([], Proceed [(u "api-key", u "0123456789abcdef");
                  (u "Content-Type", u "application/json")] (Some (u "API Key"))).
Proof. by vm_compute. Qed.

Lemma hello_stops_at_failed_validation_witness :
  hello (Payload := unit)
    (fun _ => inl (InvalidTokenError (u "Signature has expired")))
    (fun _ _ => mkTokenResult (Some (u "graph-token")) None None)
    (fun _ _ => inr (mkHttpResponse 200 (u "{}")))
    (Some (u "Bearer eyJ0.eyJh.c2ln"))
  = ([], inl (InvalidTokenError (u "Signature has expired"))).
Proof.
  apply (hello_stops_at_failed_validation (Payload := unit)
           (fun _ => inl (InvalidTokenError (u "Signature has expired")))
           (fun _ _ => mkTokenResult (Some (u "graph-token")) None None)
           (fun _ _ => inr (mkHttpResponse 200 (u "{}")))
           (Some (u "Bearer eyJ0.eyJh.c2ln"))).
  right. exists (Some (u "eyJ0.eyJh.c2ln")). split; by vm_compute.
Defined.

End AppPyRuns.

(** ** The button handler of [Home.jsx] *)

Section HomeFacts.
Import Js Config Browser ApiCall Home.

Lemma is_consent_error_includes (e : JsError) :
  is_consent_error e = includes (err_message e) (u "AADSTS65001").
Proof. unfold is_consent_error. by destruct (err_message e). Qed.

Lemma call_with_token_no_acquire (w : World) (accessToken : jsstring) :
  filter is_acquire (call_with_token w accessToken).1 = [].
Proof.
  rewrite call_with_token_cases. cbv zeta.
  destruct (Headers_append _ _ _ _) as [headers|e]; [|reflexivity].
  destruct (fetch w _ _) as [response|e];
    [destruct (ok response); [destruct (json (engine w) response)|]|];
    reflexivity.
Qed.

End HomeFacts.

(** ** Failures are thrown on *)

Section IsolationFacts.
Import Js Config Browser ApiCall Home AppPy.

Context {Payload : Type}.
Variable jwt_decode : option str → Exception + Payload.
Variable acquire_token_on_behalf_of : option str → list str → TokenResult.
Variable requests_get : str → list (str * str) → Exception + HttpResponse.





End IsolationFacts.

Section IsolationRuns.
Import Js Config Browser ApiCall Home AppPy.


End IsolationRuns.

(** ** No retry *)

Section NoRetry.
Import Js Config Browser ApiCall Home.

(** What [callPythonOboApi] does without a token while an account is
    active. *)
Lemma callPythonOboApi_signed_in (w : World) (account : Account) :
  getActiveAccount w = Some account →
  callPythonOboApi w None =
    match acquireTokenSilent w apiRequest_scopes account with
    | Throw failure =>
        ([MsalGetActiveAccount; MsalAcquireTokenSilent apiRequest_scopes account],
         Throw failure)
    | Return accessToken =>
        ([MsalGetActiveAccount; MsalAcquireTokenSilent apiRequest_scopes account;
          ConsoleLog (u "Access token acquired for Python API")]
         ++ (call_with_token w accessToken).1,
         (call_with_token w accessToken).2)
    end.
Proof.
  intros Haccount.
  assert (token_step w None =
            match acquireTokenSilent w apiRequest_scopes account with
            | Throw failure =>
                ([MsalGetActiveAccount; MsalAcquireTokenSilent apiRequest_scopes account],
                 Throw failure)
            | Return accessToken =>
                ([MsalGetActiveAccount; MsalAcquireTokenSilent apiRequest_scopes account;
                  ConsoleLog (u "Access token acquired for Python API")],
                 Return accessToken)
            end) as Htok.
  { unfold token_step, acquire. cbn [falsy]. rewrite Haccount.
    cbn -[apiRequest_scopes u]. by destruct (acquireTokenSilent w _ account). }
  destruct (acquireTokenSilent w apiRequest_scopes account) as [accessToken|failure].
  - by rewrite (callPythonOboApi_after_token _ _ _ _ Htok).
  - by rewrite (callPythonOboApi_token_failure _ _ _ _ Htok).
Qed.

(** C8. A failed call is not retried, whatever the failure: consent
    required, permission denied or anything else. When the call of
    [handleCallOboApi] fails while an account is active, MSAL has been asked
    for a token exactly once, and the request has been sent exactly once
    when MSAL gave a token that went into the header, and not at all
    otherwise; without an active account nothing was asked or sent. The
    handler then ends with no response and the loading state off, showing
    the message of the failure, or the consent guidance when the message
    names [AADSTS65001]. *)
Theorem exchange_failure_not_retried (w : World) (st : State) (failure : JsError) :
  (callPythonOboApi w None).2 = Throw failure →
  match getActiveAccount w with
  | Some account =>
      filter is_acquire (handleCallOboApi w st).1
        = [MsalAcquireTokenSilent apiRequest_scopes account] ∧
      filter is_fetch (handleCallOboApi w st).1 =
        match acquireTokenSilent w apiRequest_scopes account with
        | Throw _ => []
        | Return accessToken =>
            match Headers_append (engine w) [] (u "Authorization")
                    (u "Bearer " ++ accessToken) with
            | Return headers => [Fetch pythonApiConfig_endpoint (options headers)]
            | Throw _ => []
            end
        end
  | None =>
      failure = no_active_account ∧
      filter is_acquire (handleCallOboApi w st).1 = [] ∧
      filter is_fetch (handleCallOboApi w st).1 = []
  end ∧
  oboError (handleCallOboApi w st).2
    = Some (if includes (err_message failure) (u "AADSTS65001") then consent_guidance
            else err_message failure) ∧
  oboResponse (handleCallOboApi w st).2 = None ∧
  oboLoading (handleCallOboApi w st).2 = false.
Proof.
  intros Hcall.
  assert ((handleCallOboApi w st).1
          = (callPythonOboApi w None).1 ++ [ConsoleError (u "OBO API Error:") failure] ∧
          (handleCallOboApi w st).2
          = set_obo false None
              (Some (if includes (err_message failure) (u "AADSTS65001") then consent_guidance
                     else err_message failure))
              (set_obo true None None st))
    as [Hlog Hstate].
  { unfold handleCallOboApi.
    destruct (callPythonOboApi w None) as [t [response|error]]; cbn [fst snd] in *; [done|].
    injection Hcall as ->. by rewrite is_consent_error_includes. }
  rewrite Hlog, Hstate, !filter_app. split; [|done].
  destruct (getActiveAccount w) as [account|] eqn:Haccount.
  - rewrite (callPythonOboApi_signed_in w account Haccount). split.
    + destruct (acquireTokenSilent w apiRequest_scopes account) as [accessToken|e];
        cbn [fst]; [|reflexivity].
      by rewrite filter_app, call_with_token_no_acquire.
    + destruct (acquireTokenSilent w apiRequest_scopes account) as [accessToken|e];
        cbn [fst]; [|reflexivity].
      rewrite filter_app, call_with_token_one_request. unfold bearer.
      by destruct (Headers_append _ _ _ _).
  - assert (callPythonOboApi w None = ([MsalGetActiveAccount], Throw no_active_account)) as Hrun.
    { apply callPythonOboApi_token_failure. unfold token_step, acquire. cbn [falsy].
      by rewrite Haccount. }
    rewrite Hrun in Hcall |- *. by injection Hcall as <-.
Qed.

End NoRetry.

Section NoRetryRun.
Import Js Config Browser ApiCall Home.

Lemma exchange_failure_not_retried_witness :
  let consent := u "AADSTS65001: The user or administrator has not consented to use the application" in
  let w := mkWorld (Some (mkAccount (u "alice")))
             (fun _ _ => Throw (mkError (OtherError (u "InteractionRequiredAuthError")) consent))
             (fun _ _ => Return (mkResponse 200 (u "OK") (u "{}"))) terse_engine in
  let st := mkState None false false None None [] None None false None in
  (filter is_acquire (handleCallOboApi w st).1
     = [MsalAcquireTokenSilent apiRequest_scopes (mkAccount (u "alice"))] ∧
   filter is_fetch (handleCallOboApi w st).1 = []) ∧
  oboError (handleCallOboApi w st).2 = Some consent_guidance ∧
  oboResponse (handleCallOboApi w st).2 = None ∧
  oboLoading (handleCallOboApi w st).2 = false.
Proof.
  intros consent w st.
  apply (exchange_failure_not_retried w st
           (mkError (OtherError (u "InteractionRequiredAuthError")) consent)).
  by vm_compute.
Defined.

End NoRetryRun.

(** ** The relay of the specification *)

Section RelayFacts.
Import Relay.

Variable attempt : DownstreamTarget → Credential → Claims → string → Status * string.

Lemma file_outcome_length (outcomes slots : list (option DownstreamResult)) (i : nat) :
  length (file_outcome outcomes slots i) = length slots.
Proof. unfold file_outcome. destruct (outcomes !! i); [apply length_insert|done]. Qed.

(** After the completions [completion], the slot of every completed call
    holds its outcome and the other slots are as before. *)
Lemma settled_lookup (outcomes : list (option DownstreamResult)) (completion : list nat) :
  ∀ (slots : list (option DownstreamResult)) (i : nat),
    length slots = length outcomes →
    foldl (file_outcome outcomes) slots completion !! i =
      if decide (i ∈ completion) then outcomes !! i else slots !! i.
Proof.
  induction completion as [|j completion IH]; intros slots i Hlen; cbn [foldl].
  - case_decide as Hin; [by apply elem_of_nil in Hin|done].
  - rewrite IH by (by rewrite file_outcome_length).
    destruct (decide (i ∈ completion)) as [Hin|Hnotin].
    + by rewrite decide_True by (apply elem_of_cons; by right).
    + destruct (decide (i = j)) as [->|Hne].
      * rewrite decide_True by (apply elem_of_cons; by left).
        unfold file_outcome. destruct (outcomes !! j) as [o|] eqn:Hj.
        -- apply list_lookup_insert_eq. rewrite Hlen. by eapply lookup_lt_Some.
        -- apply lookup_ge_None. rewrite Hlen. by apply lookup_ge_None.
      * rewrite decide_False by (intros [?|?]%elem_of_cons; done).
        unfold file_outcome. destruct (outcomes !! j); [|done].
        by apply list_lookup_insert_ne.
Qed.

(** Once every call has completed, in whatever order, the slots hold the
    outcomes in the order of the calls. *)
Lemma settled_all (outcomes : list (option DownstreamResult)) (completion : list nat) :
  (∀ i, (i < length outcomes)%nat → i ∈ completion) →
  foldl (file_outcome outcomes) (replicate (length outcomes) None) completion = outcomes.
Proof.
  intros Hall. apply list_eq. intros i.
  rewrite settled_lookup by apply length_replicate.
  destruct (decide (i ∈ completion)) as [_|Hnotin]; [done|].
  assert (length outcomes ≤ i)%nat as Hge.
  { destruct (decide (i < length outcomes)%nat) as [Hlt|?]; [|lia]. by apply Hall in Hlt. }
  rewrite (proj2 (lookup_ge_None outcomes i) Hge).
  apply lookup_ge_None. by rewrite length_replicate.
Qed.

Lemma omap_id_map {A B} (f : A → option B) (l : list A) : omap id (map f l) = omap f l.
Proof.
  induction l as [|a l IH]; [done|].
  csimpl. destruct (f a); csimpl; by rewrite IH.
Qed.

Lemma dispatch_by_declaration (completion : list nat) (targets : list DownstreamTarget)
  (credentials : gmap string Credential) (c : Claims) (request : string) :
  completion ≡ₚ seq 0 (length targets) →
  dispatch attempt completion targets credentials c request
    = omap (call_target attempt credentials c request) targets.
Proof.
  intros Hperm. unfold dispatch.
  set (outcomes := map (call_target attempt credentials c request) targets).
  replace (length targets) with (length outcomes) by apply length_map.
  rewrite settled_all.
  - apply omap_id_map.
  - intros i Hi. rewrite Hperm. apply elem_of_seq.
    unfold outcomes in Hi. rewrite length_map in Hi. lia.
Qed.

Lemma entries_follow_targets (targets : list DownstreamTarget)
  (credentials : gmap string Credential) (c : Claims) (request : string) :
  target <$> omap (call_target attempt credentials c request) targets
    = name <$> filter (λ t, is_Some (credentials !! name t)) targets.
Proof.
  induction targets as [|t targets IH]; [done|].
  rewrite filter_cons. csimpl.
  destruct (decide (is_Some (credentials !! name t))) as [[cred Hcred]|Hnone].
  - unfold call_target at 1. rewrite Hcred. csimpl. by rewrite IH.
  - unfold call_target at 1.
    destruct (credentials !! name t) as [cred|]; [by destruct Hnone|].
    csimpl. by rewrite IH.
Qed.

(** C7. Whatever the order in which the calls complete, the results of the
    response are the entries of the invoked targets in the order in which
    the targets were declared. *)
Theorem results_in_declaration_order (completion : list nat) (targets : list DownstreamTarget)
  (credentials : gmap string Credential) (c : Claims) (request : string)
  (requiredTargets : gset string) :
  completion ≡ₚ seq 0 (length targets) →
  results (normalize c (dispatch attempt completion targets credentials c request)
             requiredTargets)
    = omap (call_target attempt credentials c request) targets ∧
  target <$> results (normalize c (dispatch attempt completion targets credentials c request)
                        requiredTargets)
    = name <$> filter (λ t, is_Some (credentials !! name t)) targets.
Proof.
  intros Hperm. cbn [normalize results].
  rewrite (dispatch_by_declaration _ _ _ _ _ Hperm). split; [done|].
  apply entries_follow_targets.
Qed.

End RelayFacts.

Section RelayRuns.
Import Relay.

Lemma results_in_declaration_order_witness :
  let targets := [mkTarget "graph" "https://graph.microsoft.com/v1.0" "User.Read" Delegated;
                  mkTarget "search" "https://contoso.search.windows.net" "user_impersonation"
                    SharedSecret;
                  mkTarget "audit" "https://audit.contoso.com" "audit.write" Delegated] in
  let credentials : gmap string Credential :=
    {[ "graph" := DelegatedToken "graph-token" 1700003600 "User.Read";
       "search" := SharedSecretKey "0123456789abcdef";
       "audit" := DelegatedToken "audit-token" 1700003600 "audit.write" ]} in
  let reply := fun (t : DownstreamTarget) (_ : Credential) (_ : Claims) (_ : string) =>
                 (match authStrategy t with Delegated => Success | SharedSecret => AuthFailure end,
                  name t) in
  let c := mkClaims "alice" "contoso" ∅ 1700000600 "api://relay" in
  results (normalize c (dispatch reply [2; 0; 1]%nat targets credentials c "london") {["graph"]})
    = omap (call_target reply credentials c "london") targets ∧
  target <$> results (normalize c (dispatch reply [2; 0; 1]%nat targets credentials c "london")
                        {["graph"]})
    = name <$> filter (λ t, is_Some (credentials !! name t)) targets.
Proof.
  intros targets credentials reply c.
  apply (results_in_declaration_order reply [2; 0; 1]%nat targets credentials c "london" {["graph"]}).
  change (length targets) with 3%nat. simpl.
  etrans; [apply Permutation_swap|]. apply Permutation_skip, Permutation_swap.
Defined.

(** A run of the relay: three targets completing out of order, one of them
    failing. *)
Example dispatch_run :
  let targets := [mkTarget "graph" "https://graph.microsoft.com/v1.0" "User.Read" Delegated;
                  mkTarget "search" "https://contoso.search.windows.net" "user_impersonation"
                    SharedSecret] in
  let credentials : gmap string Credential :=
    {[ "graph" := DelegatedToken "graph-token" 1700003600 "User.Read";
       "search" := SharedSecretKey "0123456789abcdef" ]} in
  let reply := fun (t : DownstreamTarget) (_ : Credential) (_ : Claims) (_ : string) =>
                 (match authStrategy t with Delegated => Success | SharedSecret => AuthFailure end,
                  name t) in
  let c := mkClaims "alice" "contoso" ∅ 1700000600 "api://relay" in
  dispatch reply [1; 0]%nat targets credentials c "london"
    = [mkResult "graph" Success "graph" Delegated;
       mkResult "search" AuthFailure "search" SharedSecret] ∧
  overall (normalize c (dispatch reply [1; 0]%nat targets credentials c "london") {["graph"]})
    = PartialSuccess ∧
  overall (normalize c (dispatch reply [1; 0]%nat targets credentials c "london") {["search"]})
    = Failure.
Proof. by vm_compute. Qed.

End RelayRuns.

(** * More of the code *)

(** ** [callPythonOboApi] without a token *)

Section AcquireFacts.
Import Js Config Browser ApiCall Observe.

Lemma token_step_failure (w : World) (arg : option jsstring) (failure : JsError) :
  falsy arg = true →
  (getActiveAccount w = None ∧ failure = no_active_account) ∨
  (∃ account, getActiveAccount w = Some account ∧
              acquireTokenSilent w apiRequest_scopes account = Throw failure) →
  token_step w arg =
    (MsalGetActiveAccount ::
       match getActiveAccount w with
       | Some account => [MsalAcquireTokenSilent apiRequest_scopes account]
       | None => []
       end,
     Throw failure).
Proof.
  intros Hfalsy H. unfold token_step, acquire. rewrite Hfalsy.
  destruct H as [[Hnone ->]|(account & Hsome & Hacq)].
  - by rewrite Hnone.
  - rewrite Hsome. cbn -[apiRequest_scopes]. by rewrite Hacq.
Qed.

Lemma token_step_acquired (w : World) (arg : option jsstring) (account : Account)
  (accessToken : jsstring) :
  falsy arg = true →
  getActiveAccount w = Some account →
  acquireTokenSilent w apiRequest_scopes account = Return accessToken →
  token_step w arg =
    ([MsalGetActiveAccount; MsalAcquireTokenSilent apiRequest_scopes account;
      ConsoleLog (u "Access token acquired for Python API")],
     Return accessToken).
Proof.
  intros Hfalsy Hsome Hacq. unfold token_step, acquire. rewrite Hfalsy, Hsome.
  cbn -[apiRequest_scopes u]. by rewrite Hacq.
Qed.

(** When [callPythonOboApi] is entered without a token (none given, or the
    empty string) and the token cannot be acquired, because no account is
    active or because MSAL rejects, it rejects with that failure; the MSAL
    instance is the only thing it has touched: no header is built, no
    request is sent, and nothing is written to [console.error]. *)
Theorem callPythonOboApi_acquisition_failure (w : World) (arg : option jsstring)
  (failure : JsError) :
  falsy arg = true →
  (getActiveAccount w = None ∧ failure = no_active_account) ∨
  (∃ account, getActiveAccount w = Some account ∧
              acquireTokenSilent w apiRequest_scopes account = Throw failure) →
  (callPythonOboApi w arg).2 = Throw failure ∧
  filter (λ e, negb (is_msal e)) (callPythonOboApi w arg).1 = [] ∧
  (length (filter is_acquire (callPythonOboApi w arg).1) ≤ 1)%nat.
Proof.
  intros Hfalsy H.
  rewrite (callPythonOboApi_token_failure _ _ _ _ (token_step_failure _ _ _ Hfalsy H)).
  cbn [fst snd]. split; [done|].
  destruct (getActiveAccount w); split; first [reflexivity | simpl; lia].
Qed.

Lemma callPythonOboApi_acquisition_failure_witness :
  let w := mkWorld None (fun _ _ => Return (u "eyJ0.eyJh.c2ln"))
             (fun _ _ => Return (mkResponse 200 (u "OK") (u "{}"))) terse_engine in
  (callPythonOboApi w (Some [])).2 = Throw no_active_account ∧
  filter (λ e, negb (is_msal e)) (callPythonOboApi w (Some [])).1 = [] ∧
  (length (filter is_acquire (callPythonOboApi w (Some [])).1) ≤ 1)%nat.
Proof.
  intros w.
  apply (callPythonOboApi_acquisition_failure w (Some []) no_active_account).
  - reflexivity.
  - left. split; reflexivity.
Defined.

(** Entered without a token while an account is active,
    [callPythonOboApi] asks MSAL once, with the scope of the Python API, and
    then does exactly what it does when it is given that token itself: the
    same header, the same request, the same outcome. *)
Theorem callPythonOboApi_uses_acquired_token (w : World) (arg : option jsstring)
  (account : Account) (accessToken : jsstring) :
  falsy arg = true →
  getActiveAccount w = Some account →
  acquireTokenSilent w apiRequest_scopes account = Return accessToken →
  accessToken ≠ [] →
  callPythonOboApi w arg =
    ([MsalGetActiveAccount;
      MsalAcquireTokenSilent [u "api://<YOUR_API_CLIENT_ID>/access_as_user"] account;
      ConsoleLog (u "Access token acquired for Python API")]
     ++ (callPythonOboApi w (Some accessToken)).1,
     (callPythonOboApi w (Some accessToken)).2).
Proof.
  intros Hfalsy Hsome Hacq Hne.
  rewrite (callPythonOboApi_after_token _ _ _ _ (token_step_acquired _ _ _ _ Hfalsy Hsome Hacq)).
  by rewrite (callPythonOboApi_with_token _ _ Hne).
Qed.

Lemma callPythonOboApi_uses_acquired_token_witness :
  let w := mkWorld (Some (mkAccount (u "alice"))) (fun _ _ => Return (u "eyJ0.eyJh.c2ln"))
             (fun _ _ => Return (mkResponse 200 (u "OK") (u "{}"))) terse_engine in
  callPythonOboApi w None =
    ([MsalGetActiveAccount;
      MsalAcquireTokenSilent [u "api://<YOUR_API_CLIENT_ID>/access_as_user"]
        (mkAccount (u "alice"));
      ConsoleLog (u "Access token acquired for Python API")]
     ++ (callPythonOboApi w (Some (u "eyJ0.eyJh.c2ln"))).1,
     (callPythonOboApi w (Some (u "eyJ0.eyJh.c2ln"))).2).
Proof.
  intros w.
  apply (callPythonOboApi_uses_acquired_token w None (mkAccount (u "alice")) (u "eyJ0.eyJh.c2ln"));
    by vm_compute.
Defined.

(** An answer in 200-299 whose body is empty or blank (a 204, say) is a
    failure: [response.json()] rejects with the [SyntaxError] of the engine,
    and [callPythonOboApi] logs that error and rejects with it. *)
Theorem callPythonOboApi_rejects_blank_body (w : World) (arg : option jsstring)
  (acquired : list Event) (accessToken : jsstring) (headers : list (jsstring * jsstring))
  (response : Response) :
  token_step w arg = (acquired, Return accessToken) →
  Headers_append (engine w) [] (u "Authorization") (u "Bearer " ++ accessToken)
    = Return headers →
  fetch w pythonApiConfig_endpoint (options headers) = Return response →
  ok response = true →
  skip_ws (body response) = [] →
  (callPythonOboApi w arg).2
    = Throw (mkError SyntaxError (engine w (NotJSON (body response)))) ∧
  last (callPythonOboApi w arg).1
    = Some (ConsoleError (u "Error calling Python OBO API:")
              (mkError SyntaxError (engine w (NotJSON (body response))))).
Proof.
  intros Htok Hheaders Hfetch Hok Hblank.
  assert (json (engine w) response
          = Throw (mkError SyntaxError (engine w (NotJSON (body response))))) as Hjson.
  { unfold json, JSON_parse. cbn [parse_value]. by rewrite Hblank. }
  rewrite (callPythonOboApi_after_token _ _ _ _ Htok), call_with_token_cases.
  cbv zeta. unfold bearer. rewrite Hheaders, Hfetch, Hok, Hjson. cbn [fst snd].
  split; [done|]. by rewrite !app_assoc, last_snoc.
Qed.

Lemma callPythonOboApi_rejects_blank_body_witness :
  let w := mkWorld None (fun _ _ => Return (u "unused"))
             (fun _ _ => Return (mkResponse 204 (u "No Content") [])) terse_engine in
  (callPythonOboApi w (Some (u "eyJ0.eyJh.c2ln"))).2
    = Throw (mkError SyntaxError (engine w (NotJSON []))) ∧
  last (callPythonOboApi w (Some (u "eyJ0.eyJh.c2ln"))).1
    = Some (ConsoleError (u "Error calling Python OBO API:")
              (mkError SyntaxError (engine w (NotJSON [])))).
Proof.
  intros w.
  apply (callPythonOboApi_rejects_blank_body w (Some (u "eyJ0.eyJh.c2ln")) []
           (u "eyJ0.eyJh.c2ln") [(u "Authorization", u "Bearer eyJ0.eyJh.c2ln")]
           (mkResponse 204 (u "No Content") []));
    by vm_compute.
Defined.

(** [callPythonOboApi] writes to [console.error] exactly when it rejects
    after having sent its request, once, and what it writes is the failure
    it rejects with; a failure of the token acquisition is not written,
    and a success writes nothing. *)
Theorem callPythonOboApi_logs_what_it_throws (w : World) (arg : option jsstring) :
  match (callPythonOboApi w arg).2 with
  | Return _ => filter is_console_error (callPythonOboApi w arg).1 = []
  | Throw failure =>
      filter is_console_error (callPythonOboApi w arg).1
        = if bool_decide (filter is_fetch (callPythonOboApi w arg).1 = []) then []
          else [ConsoleError (u "Error calling Python OBO API:") failure]
  end.
Proof.
  assert (filter is_console_error (token_step w arg).1 = []) as Hquiet.
  { unfold token_step. destruct (falsy arg); [|done].
    unfold acquire. cbn. destruct (getActiveAccount w) as [account|]; [|done].
    cbn. by destruct (acquireTokenSilent w _ account). }
  pose proof (token_step_no_fetch w arg) as Hno.
  destruct (token_step w arg) as [acquired [accessToken|e]] eqn:Htok; cbn [fst] in *.
  - rewrite (callPythonOboApi_after_token _ _ _ _ Htok). cbn [fst snd].
    rewrite !filter_app, Hquiet, Hno, call_with_token_one_request, call_with_token_cases.
    cbv zeta.
    destruct (Headers_append _ _ _ _) as [headers|e]; [|reflexivity].
    destruct (fetch w _ _) as [response|e];
      [destruct (ok response); [destruct (json (engine w) response)|]|];
      reflexivity.
  - rewrite (callPythonOboApi_token_failure _ _ _ _ Htok). cbn [fst snd].
    by rewrite Hquiet, Hno.
Qed.

End AcquireFacts.

(** ** [handleCallOboApi], further *)

Section HandlerFacts.
Import Js Config Browser ApiCall Home.

(** An occurrence of a text cannot begin in a prefix that lacks its first
    code unit. *)
Lemma includes_after_prefix (pre s p : jsstring) (a : N) :
  a ∉ pre → includes (pre ++ s) (a :: p) = includes s (a :: p).
Proof.
  induction pre as [|c pre IH]; intros Hpre; [done|].
  apply not_elem_of_cons in Hpre as [Hne Hpre].
  cbn [app includes prefix_of].
  destruct (N.eqb_spec a c) as [->|_]; [done|].
  cbn [andb orb]. by apply IH.
Qed.

Lemma http_error_message_includes (response : Response) :
  includes (http_error_message response) (u "AADSTS65001")
    = includes (statusText response) (u "AADSTS65001").
Proof.
  unfold http_error_message.
  rewrite !app_assoc.
  change (u "AADSTS65001") with (65 :: u "ADSTS65001").
  apply includes_after_prefix.
  rewrite !not_elem_of_app. split; [split|].
  - apply (bool_decide_unpack _). by vm_compute.
  - destruct (toString10_digits (status response)) as [Hdigits _].
    intros Hin. rewrite Forall_forall in Hdigits.
    apply Hdigits in Hin. by vm_compute in Hin.
  - apply (bool_decide_unpack _). by vm_compute.
Qed.

(** When the Python API answers outside 200-299, the page shows
    [HTTP <status>: <statusText>], whatever the body of the answer says:
    the consent guidance appears only when the status text itself carries
    [AADSTS65001]. An answer is the answer to the request that went out,
    with the headers that [Headers] took. *)
Theorem handleCallOboApi_shows_http_status (w : World) (st : State) (acquired : list Event)
  (accessToken : jsstring) (headers : list (jsstring * jsstring)) (response : Response) :
  token_step w None = (acquired, Return accessToken) →
  Headers_append (engine w) [] (u "Authorization") (u "Bearer " ++ accessToken)
    = Return headers →
  fetch w pythonApiConfig_endpoint (options headers) = Return response →
  ok response = false →
  oboError (handleCallOboApi w st).2 =
    Some (if includes (statusText response) (u "AADSTS65001") then consent_guidance
          else u "HTTP " ++ toString10 (status response) ++ u ": " ++ statusText response) ∧
  oboResponse (handleCallOboApi w st).2 = None.
Proof.
  intros Htok Hheaders Hfetch Hok. unfold handleCallOboApi.
  rewrite (callPythonOboApi_after_token _ _ _ _ Htok), call_with_token_cases.
  cbv zeta. unfold bearer. rewrite Hheaders, Hfetch, Hok.
  cbn [fst snd set_obo oboError oboResponse].
  rewrite is_consent_error_includes. cbn [err_message].
  by rewrite http_error_message_includes.
Qed.

Lemma handleCallOboApi_shows_http_status_witness :
  let w := mkWorld (Some (mkAccount (u "alice"))) (fun _ _ => Return (u "eyJ0.eyJh.c2ln"))
             (fun _ _ => Return (mkResponse 500 (u "Internal Server Error")
                                   (u "AADSTS65001: consent required"))) terse_engine in
  let st := mkState None false false None None [] None None false None in
  oboError (handleCallOboApi w st).2 =
    Some (if includes (u "Internal Server Error") (u "AADSTS65001") then consent_guidance
          else u "HTTP " ++ toString10 500 ++ u ": " ++ u "Internal Server Error") ∧
  oboResponse (handleCallOboApi w st).2 = None.
Proof.
  intros w st.
  apply (handleCallOboApi_shows_http_status w st
           [MsalGetActiveAccount; MsalAcquireTokenSilent apiRequest_scopes (mkAccount (u "alice"));
            ConsoleLog (u "Access token acquired for Python API")]
           (u "eyJ0.eyJh.c2ln") [(u "Authorization", u "Bearer eyJ0.eyJh.c2ln")]
           (mkResponse 500 (u "Internal Server Error") (u "AADSTS65001: consent required")));
    by vm_compute.
Defined.


End HandlerFacts.

(** ** The middle tier, further *)

Section BearerFacts.
Import Js AppPy.

(** [hello] takes as the token whatever stands between the first and the
    second space of the [Authorization] header: the scheme before it is
    not looked at, and anything after a second space is dropped. *)
Theorem bearer_token_second_piece (scheme token : str) :
  32 ∉ scheme → 32 ∉ token →
  bearer_token (Some (scheme ++ 32 :: token)) = inr (Some token) ∧
  ∀ rest, bearer_token (Some (scheme ++ 32 :: token ++ 32 :: rest)) = inr (Some token).
Proof.
  intros Hs Ht. unfold bearer_token. split; [|intros rest].
  - replace (truthy (Some (scheme ++ 32 :: token))) with true by (by destruct scheme).
    cbn [default from_option id]. by rewrite split_on_first, split_on_absent.
  - replace (truthy (Some (scheme ++ 32 :: token ++ 32 :: rest))) with true
      by (by destruct scheme).
    cbn [default from_option id]. by rewrite !split_on_first.
Qed.

Lemma bearer_token_second_piece_witness :
  bearer_token (Some (u "Basic" ++ 32 :: u "eyJ0.eyJh.c2ln")) = inr (Some (u "eyJ0.eyJh.c2ln")) ∧
  ∀ rest, bearer_token (Some (u "Basic" ++ 32 :: u "eyJ0.eyJh.c2ln" ++ 32 :: rest))
          = inr (Some (u "eyJ0.eyJh.c2ln")).
Proof.
  apply (bearer_token_second_piece (u "Basic") (u "eyJ0.eyJh.c2ln"));
    apply (bool_decide_unpack _); by vm_compute.
Defined.

(** A header that is present but holds no space makes the extraction
    raise [IndexError]; a missing or empty header does not: the token is
    then [None]. *)
Theorem bearer_token_without_space (auth_header : option str) :
  (∀ h, auth_header = Some h → 32 ∉ h) →
  bearer_token auth_header =
    match auth_header with
    | Some (_ :: _) => inl IndexError
    | _ => inr None
    end.
Proof.
  intros Hnospace. unfold bearer_token.
  destruct auth_header as [[|c h]|]; [done| |done].
  cbn [truthy default from_option id]. by rewrite split_on_absent by (by apply Hnospace).
Qed.

Lemma bearer_token_without_space_witness :
  bearer_token (Some (u "eyJ0.eyJh.c2ln")) = inl IndexError.
Proof.
  apply (bearer_token_without_space (Some (u "eyJ0.eyJh.c2ln"))).
  intros h [= <-]. apply (bool_decide_unpack _). by vm_compute.
Defined.

End BearerFacts.

Section HelloFacts.
Import Js AppPy.

Context {Payload : Type}.
Variable jwt_decode : option str → Exception + Payload.
Variable acquire_token_on_behalf_of : option str → list str → TokenResult.
Variable requests_get : str → list (str * str) → Exception + HttpResponse.



(** The two Graph requests are made one after the other: when the
    request for [/me] raises, [/me/memberOf] is never asked for and [hello]
    ends with that exception. *)
Theorem hello_me_failure_skips_memberOf (auth_header token : option str) (payload : Payload)
  (graph_token : str) (e : Exception) :
  bearer_token auth_header = inr token →
  jwt_decode token = inr payload →
  access_token (acquire_token_on_behalf_of token graph_scopes) = Some graph_token →
  requests_get graph_me [(u "Authorization", u "Bearer " ++ graph_token)] = inl e →
  hello jwt_decode acquire_token_on_behalf_of requests_get auth_header =
    ([OnBehalfOf token graph_scopes;
      Get graph_me [(u "Authorization", u "Bearer " ++ graph_token)]],
     inl e).
Proof.
  intros Hb Hd Htoken Hme. unfold hello. rewrite Hb.
  cbn -[u graph_me graph_memberOf graph_scopes]. rewrite Hd.
  cbn -[u graph_me graph_memberOf graph_scopes]. rewrite Htoken.
  cbn -[u graph_me graph_memberOf graph_scopes]. by rewrite Hme.
Qed.

End HelloFacts.

Section MiddleTierRuns.
Import Js AppPy.

Lemma hello_me_failure_skips_memberOf_witness :
  hello (Payload := unit) (fun _ => inr tt)
    (fun _ _ => mkTokenResult (Some (u "graph-token")) None None)
    (fun url _ => if bool_decide (url = graph_me)
                  then inl (RequestException (u "connection reset"))
                  else inr (mkHttpResponse 200 (u "{}")))
    (Some (u "Bearer eyJ0.eyJh.c2ln"))
  = ([OnBehalfOf (Some (u "eyJ0.eyJh.c2ln")) graph_scopes;
      Get graph_me [(u "Authorization", u "Bearer " ++ u "graph-token")]],
     inl (RequestException (u "connection reset"))).
Proof.
  apply (hello_me_failure_skips_memberOf (Payload := unit) (fun _ => inr tt)
           (fun _ _ => mkTokenResult (Some (u "graph-token")) None None)
           (fun url _ => if bool_decide (url = graph_me)
                         then inl (RequestException (u "connection reset"))
                         else inr (mkHttpResponse 200 (u "{}")))
           (Some (u "Bearer eyJ0.eyJh.c2ln")) (Some (u "eyJ0.eyJh.c2ln")) tt (u "graph-token")
           (RequestException (u "connection reset")));
    by vm_compute.
Defined.

End MiddleTierRuns.

Section SearchConfigFacts.
Import Js AppPy.

Variable acquire_token_on_behalf_of : option str → list str → TokenResult.


End SearchConfigFacts.

Section SearchConfigRuns.
Import Js AppPy.


End SearchConfigRuns.

(** ** [parseJwt], further *)

Section ParseJwtPayload.
Import Js Home.

(** The escape of an octet is [%] and two hexadecimal digits that read
    back as the octet. *)
Lemma percent_escape_octets :
  Forall (λ c, percent_escape c = [37; hex_digit (c / 16); hex_digit (c mod 16)] ∧
               parse_hex_octet (hex_digit (c / 16)) (hex_digit (c mod 16)) = Some c)
    (N.of_nat <$> seq 0 256).
Proof. apply (bool_decide_unpack _). by vm_compute. Qed.

Lemma percent_escape_octet (c : N) :
  c < 256 →
  percent_escape c = [37; hex_digit (c / 16); hex_digit (c mod 16)] ∧
  parse_hex_octet (hex_digit (c / 16)) (hex_digit (c mod 16)) = Some c.
Proof.
  intros Hc.
  apply (proj1 (Forall_forall _ _) percent_escape_octets).
  apply list_elem_of_fmap. exists (N.to_nat c). split; [lia|].
  apply elem_of_seq. lia.
Qed.

(** Escaped ASCII octets decode to themselves. *)
Lemma decode_escaped_ascii (binary : jsstring) :
  Forall (λ c, c < 128) binary →
  ∀ fuel, (length binary ≤ fuel)%nat →
  decode_fuel fuel (concat (map percent_escape binary)) = Some binary.
Proof.
  induction 1 as [|c binary Hc Hrest IH]; intros fuel Hfuel.
  - by destruct fuel.
  - destruct fuel as [|fuel]; [simpl in Hfuel; lia|].
    destruct (percent_escape_octet c ltac:(lia)) as [Hesc Hhex].
    cbn [map concat]. rewrite Hesc. cbn [app decode_fuel].
    rewrite N.eqb_refl, Hhex. cbn [mbind option_bind].
    unfold leading_ones. rewrite (proj2 (N.ltb_lt c 128) Hc).
    rewrite IH by (simpl in Hfuel; lia). done.
Qed.

Lemma decodeURIComponent_escaped_ascii (binary : jsstring) :
  Forall (λ c, c < 128) binary →
  decodeURIComponent (concat (map percent_escape binary)) = Return binary.
Proof.
  intros Hascii. unfold decodeURIComponent.
  rewrite (decode_escaped_ascii binary Hascii); [done|].
  clear Hascii. induction binary as [|c binary IH]; [done|].
  cbn [map concat]. rewrite length_app. simpl. lia.
Qed.

(** When the second segment is the base64 or base64url text of ASCII
    bytes, [parseJwt] returns what [JSON.parse] makes of these bytes, and
    [null] when they are not JSON: the escaping and unescaping between
    [atob] and [JSON.parse] changes nothing. *)
Theorem parseJwt_ascii_payload (engine : Engine) (token segment binary : jsstring) :
  split_on 46 token !! 1%nat = Some segment →
  atob (replace_all 95 47 (replace_all 45 43 segment)) = Return binary →
  Forall (λ c, c < 128) binary →
  parseJwt engine token = try_catch (JSON_parse engine binary) (λ _, Return JNull).
Proof.
  intros Hsegment Hatob Hascii. unfold parseJwt, parseJwt_try.
  rewrite Hsegment. cbn [mbind completion_bind bind]. rewrite Hatob.
  cbn [mbind completion_bind bind].
  by rewrite (decodeURIComponent_escaped_ascii binary Hascii).
Qed.

Lemma parseJwt_ascii_payload_witness :
  parseJwt terse_engine (u "eyJ0eXAiOiJKV1QifQ.eyJhIjoxfQ.c2ln")
    = try_catch (JSON_parse terse_engine [123; 34; 97; 34; 58; 49; 125]) (λ _, Return JNull).
Proof.
  apply (parseJwt_ascii_payload terse_engine (u "eyJ0eXAiOiJKV1QifQ.eyJhIjoxfQ.c2ln")
           (u "eyJhIjoxfQ")
           [123; 34; 97; 34; 58; 49; 125]).
  - by vm_compute.
  - by vm_compute.
  - apply (bool_decide_unpack _). by vm_compute.
Defined.

End ParseJwtPayload.

Section ParseJwtAlphabet.
Import Js Home.

Lemma split_on_replace_all (c d : N) (s : jsstring) :
  c ≠ 46 → d ≠ 46 →
  split_on 46 (replace_all c d s) = map (replace_all c d) (split_on 46 s).
Proof.
  intros Hc Hd. induction s as [|x s IH]; [done|].
  unfold replace_all in *. cbn [map split_on]. rewrite IH.
  destruct (N.eqb_spec x c) as [->|Hx].
  - rewrite (proj2 (N.eqb_neq d 46) Hd), (proj2 (N.eqb_neq c 46) Hc).
    destruct (split_on 46 s); cbn [map]; by rewrite ?N.eqb_refl.
  - destruct (N.eqb_spec x 46) as [->|Hdot]; [done|].
    destruct (split_on 46 s); cbn [map]; by rewrite (proj2 (N.eqb_neq x c) Hx).
Qed.

Lemma normalise_twice (s : jsstring) :
  replace_all 95 47 (replace_all 45 43 (replace_all 95 47 (replace_all 45 43 s)))
    = replace_all 95 47 (replace_all 45 43 s).
Proof.
  unfold replace_all. rewrite !map_map. apply map_ext. intros x.
  destruct (N.eqb_spec x 45) as [->|H45]; [done|].
  destruct (N.eqb_spec x 95) as [->|H95]; [done|].
  by rewrite (proj2 (N.eqb_neq x 45) H45), (proj2 (N.eqb_neq x 95) H95).
Qed.

(** [parseJwt] reads the two base64 alphabets alike: writing [+] for
    every [-] and [/] for every [_] of a token does not change what it
    returns, so a payload in base64, in base64url or in a mixture of the
    two decodes to the same claims. *)
Theorem parseJwt_either_alphabet (engine : Engine) (token : jsstring) :
  parseJwt engine (replace_all 95 47 (replace_all 45 43 token)) = parseJwt engine token.
Proof.
  unfold parseJwt, parseJwt_try.
  rewrite !split_on_replace_all by done. rewrite !list_lookup_fmap.
  destruct (split_on 46 token !! 1%nat) as [segment|]; [|done].
  cbn [fmap option_fmap option_map]. by rewrite normalise_twice.
Qed.

End ParseJwtAlphabet.

(** ** [handleRequestAccessToken] *)

Section RequestTokenFacts.
Import Js Config Browser ApiCall Home HomeHandlers Observe.

(** A token that [parseJwt] cannot decode still counts as acquired: with
    an access token without a dot, the handler logs the acquisition as a
    success, ends the loading state and empties the claims on display,
    whatever they were. *)
Theorem handleRequestAccessToken_opaque_token (w : World) (st : State) (account : Account)
  (accessToken : jsstring) :
  getActiveAccount w = Some account →
  acquireTokenSilent w apiRequest_scopes account = Return accessToken →
  46 ∉ accessToken →
  handleRequestAccessToken w st =
    ([MsalGetActiveAccount; MsalAcquireTokenSilent apiRequest_scopes account;
      ConsoleLog (u "Access token acquired for Python OBO API")],
     set_token_cells None false st).
Proof.
  intros Haccount Htoken Hdot. unfold handleRequestAccessToken.
  rewrite Haccount, Htoken.
  replace (parseJwt (engine w) accessToken) with (Return JNull : Completion JSValue); [done|].
  unfold parseJwt, parseJwt_try. by rewrite (split_on_absent _ _ Hdot).
Qed.

(** [handleRequestAccessToken] only asks MSAL and writes to the console:
    it sends no request, reports nothing through [console.error], asks for
    a token at most once, and leaves every cell but [accessTokenClaims] and
    [loading] as it was. Without an active account the state is left as it
    is. With one, [loading] is false at the end, and [accessTokenClaims]
    holds what [parseJwt] made of the token that MSAL gave, or what it held
    before when MSAL gave none. *)
Theorem handleRequestAccessToken_token_cells_only (w : World) (st : State) :
  filter is_fetch (handleRequestAccessToken w st).1 = [] ∧
  filter is_console_error (handleRequestAccessToken w st).1 = [] ∧
  (length (filter is_acquire (handleRequestAccessToken w st).1) ≤ 1)%nat ∧
  (let st' := (handleRequestAccessToken w st).2 in
   (oboLoading st', oboResponse st', oboError st', searchQuery st', searchResults st',
    searchError st', searchLoading st', searchTokenClaims st')
   = (oboLoading st, oboResponse st, oboError st, searchQuery st, searchResults st,
      searchError st, searchLoading st, searchTokenClaims st)) ∧
  match getActiveAccount w with
  | None => (handleRequestAccessToken w st).2 = st
  | Some account =>
      loading (handleRequestAccessToken w st).2 = false ∧
      match acquireTokenSilent w apiRequest_scopes account with
      | Return accessToken =>
          ∃ claims, parseJwt (engine w) accessToken = Return claims ∧
                    accessTokenClaims (handleRequestAccessToken w st).2 = cell_of claims
      | Throw _ =>
          accessTokenClaims (handleRequestAccessToken w st).2 = accessTokenClaims st
      end
  end.
Proof.
  unfold handleRequestAccessToken.
  destruct (getActiveAccount w) as [account|]; [|by repeat split; simpl; try lia].
  destruct (acquireTokenSilent w apiRequest_scopes account) as [accessToken|e].
  - assert (∃ claims, parseJwt (engine w) accessToken = Return claims) as [claims Hclaims].
    { unfold parseJwt, try_catch. destruct (parseJwt_try _ _); by eexists. }
    rewrite Hclaims. cbv zeta.
    split; [reflexivity|]. split; [reflexivity|]. split; [simpl; lia|].
    split; [reflexivity|]. split; [reflexivity|]. by exists claims.
  - cbv zeta. split; [reflexivity|]. split; [reflexivity|]. split; [simpl; lia|].
    split; [reflexivity|]. split; reflexivity.
Qed.

End RequestTokenFacts.

Section RequestTokenRuns.
Import Js Config Browser ApiCall Home HomeHandlers.

Lemma handleRequestAccessToken_opaque_token_witness :
  handleRequestAccessToken
    (mkWorld (Some (mkAccount (u "oid.tid")))
       (fun _ _ => Return (u "opaque-reference-token"))
       (fun _ _ => Throw (mkError TypeError (u "Failed to fetch"))) terse_engine)
    (mkState (Some (JObject [(u "name", JString (u "Ada"))])) false false None None [] None None
       false None) =
    ([MsalGetActiveAccount; MsalAcquireTokenSilent apiRequest_scopes (mkAccount (u "oid.tid"));
      ConsoleLog (u "Access token acquired for Python OBO API")],
     set_token_cells None false
       (mkState (Some (JObject [(u "name", JString (u "Ada"))])) false false None None [] None
          None false None)).
Proof.
  apply (handleRequestAccessToken_opaque_token
           (mkWorld (Some (mkAccount (u "oid.tid")))
              (fun _ _ => Return (u "opaque-reference-token"))
              (fun _ _ => Throw (mkError TypeError (u "Failed to fetch"))) terse_engine)
           _ (mkAccount (u "oid.tid")) (u "opaque-reference-token")).
  - reflexivity.
  - reflexivity.
  - apply (bool_decide_unpack _). by vm_compute.
Defined.

End RequestTokenRuns.

(** ** The body of the search request *)

Section StringifyFacts.
Import Js JsMore.











End StringifyFacts.

(** ** [handleAISearch] *)

Section SearchHandlerFacts.
Import Js JsMore Config Browser ApiCall Home HomeHandlers Observe.

Lemma trim_start_nil (s : jsstring) :
  trim_start s = [] ↔ forallb is_js_whitespace s = true.
Proof.
  induction s as [|c s IH]; [done|]. cbn [trim_start forallb].
  destruct (is_js_whitespace c); [done|]. cbn [andb]. split; discriminate.
Qed.

Lemma trim_start_head (s : jsstring) (c : N) (rest : jsstring) :
  trim_start s = c :: rest → is_js_whitespace c = false.
Proof.
  induction s as [|x s IH]; [done|]. cbn [trim_start].
  destruct (is_js_whitespace x) eqn:Hx; [done|]. by intros [= <- _].
Qed.

(** [s.trim()] is empty exactly when [s] consists of white space. *)
Lemma trim_blank (s : jsstring) : trim s = [] ↔ forallb is_js_whitespace s = true.
Proof.
  unfold trim. split.
  - intros Hempty.
    assert (trim_start (reverse (trim_start s)) = []) as Hback.
    { destruct (trim_start (reverse (trim_start s))) as [|x l]; [done|].
      rewrite reverse_cons in Hempty. by destruct (reverse l). }
    apply trim_start_nil in Hback.
    destruct (trim_start s) as [|c rest] eqn:Hfront; [by apply trim_start_nil|].
    apply trim_start_head in Hfront.
    apply Is_true_true, forallb_True, Forall_reverse, Forall_cons in Hback as [Hc _].
    apply Is_true_true in Hc. congruence.
  - intros Hblank. apply trim_start_nil in Hblank. by rewrite Hblank.
Qed.

(** The handler past its two guards, case by case. *)
Lemma handleAISearch_cases (w : World) (searchQuery : jsstring) (cells : SearchCells)
  (account : Account) :
  getActiveAccount w = Some account →
  forallb is_js_whitespace searchQuery = false →
  handleAISearch w searchQuery cells =
    let asked := [MsalGetActiveAccount; MsalAcquireTokenSilent apiRequest_scopes account] in
    let caught (t : list Event) (failure : JsError) :=
      (t ++ [ConsoleError (u "Error performing AI Search:") failure],
       mkSearchCells None
         (Some (JString (if is_consent_error failure then search_consent_guidance
                         else err_message failure)))
         false) in
    match acquireTokenSilent w apiRequest_scopes account with
    | Throw failure => caught asked failure
    | Return accessToken =>
        let sent := asked ++ [Fetch API_ENDPOINTS_search (search_init accessToken searchQuery)] in
        match fetch w API_ENDPOINTS_search (search_init accessToken searchQuery) with
        | Throw failure => caught sent failure
        | Return result =>
            match json (engine w) result with
            | Throw failure => caught sent failure
            | Return data =>
                if ok result then (sent, mkSearchCells (cell_of data) None false)
                else match error_or_fallback (engine w) data with
                     | Throw failure => caught sent failure
                     | Return shown => (sent, mkSearchCells None (cell_of shown) false)
                     end
            end
        end
    end.
Proof.
  intros Haccount Hquery. unfold handleAISearch. rewrite Haccount.
  rewrite bool_decide_eq_false_2; [|by rewrite trim_blank, Hquery].
  unfold search_try, emit, lift. cbn [mbind run_mbind run_bind mret run_mret run_ret].
  destruct (acquireTokenSilent w apiRequest_scopes account) as [accessToken|failure];
    [|reflexivity].
  destruct (fetch w API_ENDPOINTS_search (search_init accessToken searchQuery))
    as [result|failure]; [|reflexivity].
  destruct (json (engine w) result) as [data|failure]; [|reflexivity].
  destruct (ok result); [reflexivity|].
  by destruct (error_or_fallback (engine w) data) as [shown|failure].
Qed.

Lemma JSON_parse_throws (engine : Engine) (text : jsstring) (e : JsError) :
  JSON_parse engine text = Throw e → e = json_syntax_error engine text.
Proof.
  unfold JSON_parse. destruct (parse_value _ text) as [[v rest]|]; [|congruence].
  destruct (skip_ws rest); congruence.
Qed.

Lemma error_or_fallback_shown (engine : Engine) (data shown : JSValue) :
  error_or_fallback engine data = Return shown →
  truthy shown = true ∧ cell_of shown = Some shown.
Proof.
  unfold error_or_fallback.
  destruct (read_error engine data) as [[v|]|e] eqn:Hread; cbn [mbind completion_bind bind].
  - destruct (truthy v) eqn:Hv; intros [= <-]; [|done]. by destruct v.
  - by intros [= <-].
  - done.
Qed.

Lemma error_or_fallback_throws (engine : Engine) (data : JSValue) (e : JsError) :
  error_or_fallback engine data = Throw e → e = null_error engine ∧ data = JNull.
Proof.
  unfold error_or_fallback, read_error.
  destruct data; cbn [mbind completion_bind bind]; try (intros [= <-]; done);
    repeat case_match; congruence.
Qed.

(** The two guards of [handleAISearch]: without an active account, or
    with a query that is empty or white space only, the handler asks MSAL
    for the account and nothing else. No token is acquired and no request
    is sent; the message says which guard stopped it, the account being
    looked at first; the results on display and the loading state stay as
    they were. *)
Theorem handleAISearch_guards (w : World) (searchQuery : jsstring) (cells : SearchCells) :
  getActiveAccount w = None ∨ forallb is_js_whitespace searchQuery = true →
  handleAISearch w searchQuery cells =
    ([MsalGetActiveAccount],
     mkSearchCells (results cells)
       (Some (JString (match getActiveAccount w with
                       | None => u "No active account. Please sign in."
                       | Some _ => u "Please enter a search query"
                       end)))
       (searching cells)).
Proof.
  intros Hguard. unfold handleAISearch.
  destruct (getActiveAccount w) as [account|]; [|done].
  destruct Hguard as [|Hblank]; [done|].
  by rewrite bool_decide_eq_true_2 by (by apply trim_blank).
Qed.



(** When the Python API answers the search outside 200-299, no results
    are shown and an error is. For a body that is JSON and not [null], it is
    the [error] member of the answer when it has one that is not falsy, and
    the fixed text [Failed to perform search] otherwise: never an empty one.
    For a body that is not JSON, or is [null], it comes from the exception
    that the engine raises, the body being parsed before [result.ok] is
    looked at: its message as the engine words it, or the consent guidance
    when that message carries [AADSTS65001]. *)
Theorem handleAISearch_failed_answer_shows_error (w : World) (searchQuery : jsstring)
  (cells : SearchCells) (account : Account) (accessToken : jsstring) (result : Response) :
  getActiveAccount w = Some account →
  forallb is_js_whitespace searchQuery = false →
  acquireTokenSilent w apiRequest_scopes account = Return accessToken →
  fetch w API_ENDPOINTS_search (search_init accessToken searchQuery) = Return result →
  ok result = false →
  let raised message :=
    JString (if includes message (u "AADSTS65001") then search_consent_guidance else message) in
  results (handleAISearch w searchQuery cells).2 = None ∧
  ∃ shown,
    error (handleAISearch w searchQuery cells).2 = Some shown ∧
    shown =
      match json (engine w) result with
      | Throw _ => raised (engine w (NotJSON (body result)))
      | Return JNull => raised (engine w (PropertyOfNull (u "error")))
      | Return data =>
          match get_member (u "error") data with
          | Some member => if truthy member then member else JString (u "Failed to perform search")
          | None => JString (u "Failed to perform search")
          end
      end ∧
    match json (engine w) result with
    | Throw _ | Return JNull => True
    | Return _ => truthy shown = true
    end.
Proof.
  intros Haccount Hquery Htoken Hfetch Hok raised.
  rewrite (handleAISearch_cases _ _ _ _ Haccount Hquery). cbv zeta.
  rewrite Htoken, Hfetch, Hok.
  destruct (json (engine w) result) as [data|failure] eqn:Hjson.
  - destruct (error_or_fallback (engine w) data) as [shown|failure] eqn:Hshown.
    + destruct (error_or_fallback_shown _ _ _ Hshown) as [Htruthy Hcell].
      split; [done|]. exists shown. cbn [snd error]. split; [done|].
      revert Hshown. unfold error_or_fallback, read_error.
      destruct data; cbn [mbind completion_bind bind get_member];
        try (by intros [= <-]).
      destruct (snd <$> _) as [member|]; [|by intros [= <-]].
      destruct (truthy member); by intros [= <-].
    + destruct (error_or_fallback_throws _ _ _ Hshown) as [-> ->].
      split; [done|]. eexists. cbn [snd error]. split; [|done].
      unfold raised. by rewrite is_consent_error_includes.
  - apply JSON_parse_throws in Hjson as ->.
    split; [done|]. eexists. cbn [snd error]. split; [|done].
    unfold raised. by rewrite is_consent_error_includes.
Qed.

(** When MSAL does not give a token, [handleAISearch] sends nothing to
    the Python API. It reports the failure through [console.error] and
    shows its message, or the consent guidance when the message carries
    [AADSTS65001]; results are cleared and the loading state is off. *)
Theorem handleAISearch_token_failure (w : World) (searchQuery : jsstring)
  (cells : SearchCells) (account : Account) (failure : JsError) :
  getActiveAccount w = Some account →
  forallb is_js_whitespace searchQuery = false →
  acquireTokenSilent w apiRequest_scopes account = Throw failure →
  handleAISearch w searchQuery cells =
    ([MsalGetActiveAccount; MsalAcquireTokenSilent apiRequest_scopes account;
      ConsoleError (u "Error performing AI Search:") failure],
     mkSearchCells None
       (Some (JString (if includes (err_message failure) (u "AADSTS65001")
                       then search_consent_guidance else err_message failure)))
       false).
Proof.
  intros Haccount Hquery Htoken.
  rewrite (handleAISearch_cases _ _ _ _ Haccount Hquery). cbv zeta.
  by rewrite Htoken, is_consent_error_includes.
Qed.

End SearchHandlerFacts.

Section SearchHandlerRuns.
Import Js JsMore Config Browser ApiCall Home HomeHandlers.

Lemma handleAISearch_guards_witness :
  let w := mkWorld (Some (mkAccount (u "oid.tid"))) (fun _ _ => Return (u "eyJ0.eyJh.c2ln"))
             (fun _ _ => Return (mkResponse 200 (u "OK") (u "[]"))) terse_engine in
  let cells := mkSearchCells (Some (JArray [])) None false in
  handleAISearch w [32; 9; 160] cells =
    ([MsalGetActiveAccount],
     mkSearchCells (results cells)
       (Some (JString (match getActiveAccount w with
                       | None => u "No active account. Please sign in."
                       | Some _ => u "Please enter a search query"
                       end)))
       (searching cells)).
Proof.
  intros w cells. apply (handleAISearch_guards w [32; 9; 160] cells).
  right. reflexivity.
Defined.



Lemma handleAISearch_failed_answer_shows_error_witness :
  let answer := mkResponse 502 (u "Bad Gateway") (u "AADSTS65001 upstream") in
  let quoting : Engine :=
    fun fault => match fault with
                 | NotJSON text => u "Unexpected token in " ++ text
                 | _ => u "TypeError"
                 end in
  let w := mkWorld (Some (mkAccount (u "oid.tid"))) (fun _ _ => Return (u "eyJ0.eyJh.c2ln"))
             (fun _ _ => Return answer) quoting in
  let cells := mkSearchCells (Some (JArray [])) None false in
  let raised message :=
    JString (if includes message (u "AADSTS65001") then search_consent_guidance else message) in
  results (handleAISearch w (u "parks") cells).2 = None ∧
  ∃ shown,
    error (handleAISearch w (u "parks") cells).2 = Some shown ∧
    shown =
      match json (engine w) answer with
      | Throw _ => raised (engine w (NotJSON (body answer)))
      | Return JNull => raised (engine w (PropertyOfNull (u "error")))
      | Return data =>
          match get_member (u "error") data with
          | Some member => if truthy member then member else JString (u "Failed to perform search")
          | None => JString (u "Failed to perform search")
          end
      end ∧
    match json (engine w) answer with
    | Throw _ | Return JNull => True
    | Return _ => truthy shown = true
    end.
Proof.
  intros answer quoting w cells.
  apply (handleAISearch_failed_answer_shows_error w (u "parks") cells (mkAccount (u "oid.tid"))
           (u "eyJ0.eyJh.c2ln") answer).
  - reflexivity.
  - by vm_compute.
  - reflexivity.
  - reflexivity.
  - by vm_compute.
Defined.

Lemma handleAISearch_token_failure_witness :
  let failure := mkError (OtherError (u "InteractionRequiredAuthError"))
                   (u "AADSTS65001: The user or administrator has not consented") in
  let w := mkWorld (Some (mkAccount (u "oid.tid"))) (fun _ _ => Throw failure)
             (fun _ _ => Return (mkResponse 200 (u "OK") (u "[]"))) terse_engine in
  let cells := mkSearchCells (Some (JArray [])) None false in
  handleAISearch w (u "parks") cells =
    ([MsalGetActiveAccount; MsalAcquireTokenSilent apiRequest_scopes (mkAccount (u "oid.tid"));
      ConsoleError (u "Error performing AI Search:") failure],
     mkSearchCells None
       (Some (JString (if includes (err_message failure) (u "AADSTS65001")
                       then search_consent_guidance else err_message failure)))
       false).
Proof.
  intros failure w cells.
  apply (handleAISearch_token_failure w (u "parks") cells (mkAccount (u "oid.tid")) failure).
  - reflexivity.
  - by vm_compute.
  - reflexivity.
Defined.

End SearchHandlerRuns.

(** ** [authConfig.js] *)

Section AuthConfigFacts.
Import Js JsMore AuthConfig.

(** [indexOf] gives -1 when the text does not occur, and otherwise the
    position of its first occurrence, which is the starting position
    exactly when the text is a prefix. *)
Lemma indexOf_from_spec (p s : jsstring) :
  ∀ i : Z, (0 ≤ i)%Z →
  if includes s p
  then (i ≤ indexOf_from s p i)%Z ∧ (indexOf_from s p i = i ↔ prefix_of p s = true)
  else indexOf_from s p i = (-1)%Z.
Proof.
  induction s as [|c s IH]; intros i Hi.
  - cbn [includes indexOf_from]. rewrite orb_false_r.
    destruct (prefix_of p []); [split; [lia|done]|done].
  - cbn [includes indexOf_from].
    destruct (prefix_of p (c :: s)) eqn:Hprefix; cbn [orb]; [split; [lia|done]|].
    specialize (IH (i + 1)%Z ltac:(lia)).
    destruct (includes s p); [|done].
    destruct IH as [Hle _]. split; [lia|]. split; [lia|done].
Qed.

Lemma indexOf_positive (ua marker : jsstring) :
  (0 <? indexOf ua marker)%Z = negb (prefix_of marker ua) && includes ua marker.
Proof.
  unfold indexOf. pose proof (indexOf_from_spec marker ua 0%Z ltac:(lia)) as Hspec.
  destruct (includes ua marker).
  - destruct Hspec as [Hle Hzero]. rewrite andb_true_r.
    destruct (prefix_of marker ua).
    + by rewrite (proj2 Hzero eq_refl).
    + apply Z.ltb_lt. destruct (decide (indexOf_from ua marker 0 = 0%Z)) as [Heq|Hne].
      * by apply Hzero in Heq.
      * lia.
  - rewrite Hspec, andb_false_r. done.
Qed.

(** With the shipped [CACHE_CONFIG], MSAL is told to keep the
    authentication state in a cookie exactly when the user agent contains
    [MSIE ], [Trident/], [Edge/] or [Firefox] somewhere after its first
    character. The checks compare the position with zero, so a user agent
    that begins with the marker does not count. *)
Theorem storeAuthStateInCookie_markers (ua : jsstring) :
  storeAuthStateInCookie ua =
    existsb (λ marker, negb (prefix_of marker ua) && includes ua marker)
      [u "MSIE "; u "Trident/"; u "Edge/"; u "Firefox"].
Proof.
  unfold storeAuthStateInCookie, isIE, isEdge, isFirefox.
  rewrite !indexOf_positive. cbn [existsb CACHE_CONFIG_storeAuthStateInCookie orb].
  by rewrite orb_false_r, !orb_assoc.
Qed.

End AuthConfigFacts.
